(** * ApnaMandi: order totals, procurement aggregation and partner earnings

    A shallow embedding of [server/storage.ts] (class [DatabaseStorage]) and
    of the order and partner handlers of [server/routes.ts], followed by the
    properties of the written specification that concern them.

    Conventions of the embedding.
    - A TypeScript [number] is an exact rational ([Qc]); binary64 rounding,
      [NaN] and the infinities are not represented.  Array lengths and the
      earnings counters derived from them are natural numbers.
    - The relational store behind [db] is a record of tables; a table is the
      list of its rows in insertion order.  [select ... where] is [filter],
      [innerJoin] is a nested loop, [insert] appends a row, [update ... where]
      rewrites the matching rows in place.  Inserts always succeed.
    - An [async] method of the storage class is a function from the store to
      a result and, when it writes, the new store.
    - An identifier that the database generates for a new row is some
      string that no row of the table carries yet ([new_id]).
    - The built-ins [parseFloat] and [Number.prototype.toString] are
      parameters of the development. *)

From Stdlib Require Import QArith Qcanon.
From stdpp Require Import base numbers list strings gmap infinite pretty.

Abbreviation number := Qc (only parsing).

(** ** Data model

    The table declarations of [@shared/schema] are not among the sources;
    the records below carry the columns that section 3 of the specification
    lists and that the storage class and the handlers read or write. *)

(** Modelled from the spec: the four values of [Order.status]. *)
Inductive OrderStatus := PLACED | PROCURING | ON_THE_WAY | DELIVERED.

#[global] Instance OrderStatus_eq_dec : EqDecision OrderStatus.
Proof. solve_decision. Defined.

(** Modelled from the spec: a row of [users], reduced to the columns an order
    read-back shows. *)
Record User := mkUser {
  u_id : string;
  u_email : string;
  u_name : string
}.

(** Modelled from the spec: a row of [products]. *)
Record Product := mkProduct {
  p_id : string;
  p_name : string;
  p_unit : string
}.

(** Modelled from the spec: a row of [orders].  [o_total] is a decimal
    column, which the ORM reads and writes as a string. *)
Record Order := mkOrder {
  o_id : string;
  o_userId : option string;
  o_status : OrderStatus;
  o_total : string
}.

(** Modelled from the spec: a row of [orderItems]; [oi_price] is the decimal
    snapshot taken at order time. *)
Record OrderItem := mkOrderItem {
  oi_id : string;
  oi_orderId : string;
  oi_productId : string;
  oi_quantity : number;
  oi_price : string
}.

(** Modelled from the spec: a row of [procurementPrices]. *)
Record ProcurementPrice := mkProcurementPrice {
  pp_productId : string;
  pp_price : string;
  pp_setAt : nat
}.

(** Modelled from the spec: a row of [deliveries]. *)
Record Delivery := mkDelivery {
  d_orderId : string;
  d_deliveredAt : nat
}.

(** Rows as handed to [insert]: the columns the caller supplies. *)
Record InsertOrder := mkInsertOrder {
  io_userId : string;
  io_status : OrderStatus;
  io_total : string
}.

Record InsertOrderItem := mkInsertOrderItem {
  ioi_orderId : string;
  ioi_productId : string;
  ioi_quantity : number;
  ioi_price : string
}.

Record InsertProcurementPrice := mkInsertProcurementPrice {
  ipp_productId : string;
  ipp_price : string
}.

Record InsertDelivery := mkInsertDelivery {
  id_orderId : string;
  id_deliveredAt : nat
}.

Record Db := mkDb {
  users : list User;
  products : list Product;
  orders : list Order;
  orderItems : list OrderItem;
  procurementPrices : list ProcurementPrice;
  deliveries : list Delivery
}.

Definition set_orders (f : list Order → list Order) (db : Db) : Db :=
  mkDb (users db) (products db) (f (orders db)) (orderItems db)
       (procurementPrices db) (deliveries db).

Definition set_orderItems (f : list OrderItem → list OrderItem) (db : Db) : Db :=
  mkDb (users db) (products db) (orders db) (f (orderItems db))
       (procurementPrices db) (deliveries db).

Definition set_procurementPrices
    (f : list ProcurementPrice → list ProcurementPrice) (db : Db) : Db :=
  mkDb (users db) (products db) (orders db) (orderItems db)
       (f (procurementPrices db)) (deliveries db).

Definition set_deliveries (f : list Delivery → list Delivery) (db : Db) : Db :=
  mkDb (users db) (products db) (orders db) (orderItems db)
       (procurementPrices db) (f (deliveries db)).

(** ** Query primitives *)

(** [from l .innerJoin(r, on)]: every pair of rows that satisfies [on]. *)
Definition innerJoin {A B} (on : A → B → bool) (l : list A) (r : list B)
    : list (A * B) :=
  flat_map (λ a, flat_map (λ b, if on a b then [(a, b)] else []) r) l.

(** The identifier a table gives to a new row: one no row of it carries. *)
Definition new_id (taken : list string) : string := fresh taken.

(** JavaScript truthiness of a string that may be [undefined]. *)
Definition truthy_string (s : option string) : bool :=
  match s with
  | Some s => negb (bool_decide (s = ""))
  | None => false
  end.

(** ** [DatabaseStorage] *)

Record OrderItemWithProduct := mkOrderItemWithProduct {
  oip_item : OrderItem;
  oip_product : Product
}.

Record OrderWithItems := mkOrderWithItems {
  owi_order : Order;
  owi_items : list OrderItemWithProduct;
  owi_user : option User
}.

Definition getUser (id : string) (db : Db) : option User :=
  head (filter (λ u, u_id u = id) (users db)).

Definition createOrder (insertOrder : InsertOrder) (db : Db) : Order * Db :=
  let order := mkOrder (new_id (o_id <$> orders db))
                       (Some (io_userId insertOrder))
                       (io_status insertOrder) (io_total insertOrder) in
  (order, set_orders (λ t, t ++ [order]) db).

Definition getOrderItems (orderId : string) (db : Db) : list OrderItemWithProduct :=
  (λ r, mkOrderItemWithProduct r.1 r.2) <$>
    filter (λ r, oi_orderId r.1 = orderId)
      (innerJoin (λ oi p, bool_decide (oi_productId oi = p_id p))
                 (orderItems db) (products db)).

Definition getOrder (id : string) (db : Db) : option OrderWithItems :=
  match head (filter (λ o, o_id o = id) (orders db)) with
  | None => None
  | Some order =>
      let items := getOrderItems id db in
      let user := if truthy_string (o_userId order)
                  then getUser (default "" (o_userId order)) db
                  else None in
      Some (mkOrderWithItems order items user)
  end.

Definition with_status (status : OrderStatus) (o : Order) : Order :=
  mkOrder (o_id o) (o_userId o) status (o_total o).

Definition updateOrderStatus (id : string) (status : OrderStatus) (db : Db)
    : option Order * Db :=
  let db' := set_orders
    (fmap (λ o, if decide (o_id o = id) then with_status status o else o)) db in
  (head (with_status status <$> filter (λ o, o_id o = id) (orders db)), db').

Definition createOrderItem (insertItem : InsertOrderItem) (db : Db)
    : OrderItem * Db :=
  let item := mkOrderItem (new_id (oi_id <$> orderItems db))
                          (ioi_orderId insertItem) (ioi_productId insertItem)
                          (ioi_quantity insertItem) (ioi_price insertItem) in
  (item, set_orderItems (λ t, t ++ [item]) db).

(** [now] is the clock reading behind the column default of [setAt]. *)
Definition setProcurementPrice (insertPrice : InsertProcurementPrice) (now : nat)
    (db : Db) : ProcurementPrice * Db :=
  let price := mkProcurementPrice (ipp_productId insertPrice)
                                  (ipp_price insertPrice) now in
  (price, set_procurementPrices (λ t, t ++ [price]) db).

Definition getLatestProcurementPrices (db : Db) : list ProcurementPrice :=
  procurementPrices db.

Definition createDelivery (insertDelivery : InsertDelivery) (db : Db)
    : Delivery * Db :=
  let delivery := mkDelivery (id_orderId insertDelivery)
                             (id_deliveredAt insertDelivery) in
  (delivery, set_deliveries (λ t, t ++ [delivery]) db).

(** *** Analytics *)

Record ProcurementRow := mkProcurementRow {
  pr_productId : string;
  pr_productName : string;
  pr_totalQuantity : number;
  pr_unit : string
}.

Record Aggregate := mkAggregate {
  ag_productName : string;
  ag_totalQuantity : number;
  ag_unit : string
}.

(** A JavaScript [Map] whose entries are enumerated: the association list of
    its entries in insertion order, one entry per key. *)
Definition Map_get {V} (k : string) (m : list (string * V)) : option V :=
  snd <$> head (filter (λ e, e.1 = k) m).

Definition Map_has {V} (k : string) (m : list (string * V)) : bool :=
  bool_decide (is_Some (Map_get k m)).

(** [set] keeps the position of a key that is present, and appends a new one. *)
Definition Map_set {V} (k : string) (v : V) (m : list (string * V))
    : list (string * V) :=
  if Map_has k m
  then (λ e, if decide (e.1 = k) then (k, v) else e) <$> m
  else m ++ [(k, v)].

(** The callback of [result.forEach].  [existing] is the object stored in the
    map, so the assignment to its field changes the entry where it stands. *)
Definition aggregate_step (aggregation : list (string * Aggregate))
    (item : ProcurementRow) : list (string * Aggregate) :=
  match Map_get (pr_productId item) aggregation with
  | Some existing =>
      Map_set (pr_productId item)
        (mkAggregate (ag_productName existing)
                     (ag_totalQuantity existing + pr_totalQuantity item)%Qc
                     (ag_unit existing))
        aggregation
  | None =>
      Map_set (pr_productId item)
        (mkAggregate (pr_productName item) (pr_totalQuantity item) (pr_unit item))
        aggregation
  end.

Definition placed_rows (db : Db) : list ProcurementRow :=
  (λ r, mkProcurementRow (oi_productId r.1.1) (p_name r.2)
                         (oi_quantity r.1.1) (p_unit r.2)) <$>
    filter (λ r, o_status r.1.2 = PLACED)
      (innerJoin (λ r p, bool_decide (oi_productId r.1 = p_id p))
         (innerJoin (λ oi o, bool_decide (oi_orderId oi = o_id o))
                    (orderItems db) (orders db))
         (products db)).

Definition getAggregatedProcurementList (db : Db) : list ProcurementRow :=
  let result := placed_rows db in
  let aggregation := fold_left aggregate_step result [] in
  (λ e, mkProcurementRow e.1 (ag_productName e.2) (ag_totalQuantity e.2)
                         (ag_unit e.2)) <$> aggregation.

Record Earnings := mkEarnings {
  totalDeliveries : nat;
  totalEarnings : nat
}.

Definition getPartnerEarnings (partnerId : option string) (db : Db) : Earnings :=
  let deliveredOrders := filter (λ o, o_status o = DELIVERED) (orders db) in
  let convenienceFeePerOrder := 40 in
  mkEarnings (length deliveredOrders)
             (length deliveredOrders * convenienceFeePerOrder).

(** ** Sample instances of the built-ins, for closed examples

    They agree with JavaScript on unsigned integer literals and on
    non-negative integers, which is all the examples use. *)

Fixpoint digits_value (acc : N) (s : string) : option N :=
  match s with
  | EmptyString => Some acc
  | String c s' =>
      let n := Ascii.N_of_ascii c in
      if bool_decide (48 ≤ n ∧ n ≤ 57)%N
      then digits_value (acc * 10 + (n - 48)) s'
      else None
  end.

Definition sample_parseFloat (s : string) : number :=
  match digits_value 0 s with
  | Some n => Q2Qc (inject_Z (Z.of_N n))
  | None => Q2Qc 0
  end.

Definition sample_toString (x : number) : string :=
  if bool_decide (Qden (this x) = 1%positive ∧ (0 ≤ Qnum (this x))%Z)
  then pretty (Z.to_N (Qnum (this x)))
  else "?".

(** ** Route handlers ([registerRoutes]) *)

(** What a handler sends: [res.json(body)], or [res.status(code).json({message})]. *)
Inductive Response (A : Type) : Type :=
  | res_json (body : A)
  | res_status (code : nat) (message : string).

Arguments res_json {A} body.
Arguments res_status {A} code message.

(** One entry of the [items] array of a [POST /api/orders] body. *)
Record OrderLine := mkOrderLine {
  productId : string;
  quantity : number
}.

(** [createOrderSchema.parse]: every quantity is at least 1.  The shape of
    the body ([items] an array of [{productId, quantity}]) is its type here. *)
Definition createOrderSchema_parse (body : list OrderLine)
    : option (list OrderLine) :=
  if forallb (λ item, bool_decide (1 ≤ quantity item)%Qc) body
  then Some body else None.

(** [new Map(entries)]: entries are set from left to right. *)
Definition Map_new (entries : list (string * number)) : gmap string number :=
  fold_left (λ m e, <[e.1 := e.2]> m) entries ∅.

(** [v || 0] for [v] a number or [undefined]. *)
Definition or_zero (v : option number) : number :=
  match v with
  | Some p => if decide (p = 0%Qc) then 0%Qc else p
  | None => 0%Qc
  end.

(** Modelled from the spec: [insertDeliverySchema] of [@shared/schema], which
    is not among the sources; a body passes when it identifies an order. *)
Record DeliveryBody := mkDeliveryBody {
  body_orderId : option string
}.

Definition insertDeliverySchema_parse (body : DeliveryBody) : option string :=
  body_orderId body.

(** What a run of [POST /api/orders] leaves behind: the response, the value
    of the local variable [total] when the response is sent ([None] when the
    handler returns before declaring it) and the store. *)
Record OrderRun := mkOrderRun {
  run_response : Response (option OrderWithItems);
  run_total : option number;
  run_db : Db
}.

Section Routes.
Variable parseFloat : string → number.
Variable toString : number → string.

Definition priceMap_of (latestPrices : list ProcurementPrice)
    : gmap string number :=
  Map_new ((λ p, (pp_productId p, parseFloat (pp_price p))) <$> latestPrices).

(** The body of [for (const item of items)]. *)
Definition order_item_step (priceMap : gmap string number) (order : Order)
    (st : number * Db) (item : OrderLine) : number * Db :=
  let price := or_zero (priceMap !! productId item) in
  let itemTotal := (price * quantity item)%Qc in
  let total := (st.1 + itemTotal)%Qc in
  let db := (createOrderItem
               (mkInsertOrderItem (o_id order) (productId item)
                                  (quantity item) (toString price))
               st.2).2 in
  (total, db).

Definition post_api_orders (body : list OrderLine) (userId : option string)
    (db : Db) : OrderRun :=
  match createOrderSchema_parse body with
  | None => mkOrderRun (res_status 500 "Failed to create order") None db
  | Some items =>
      if negb (truthy_string userId)
      then mkOrderRun (res_status 401 "User ID required") None db
      else
        let latestPrices := getLatestProcurementPrices db in
        let priceMap := priceMap_of latestPrices in
        let total := Q2Qc 40 in
        let '(order, db) :=
          createOrder (mkInsertOrder (default "" userId) PLACED "0") db in
        let '(total, db) :=
          fold_left (order_item_step priceMap order) items (total, db) in
        let db := (updateOrderStatus (o_id order) PLACED db).2 in
        let finalOrder := getOrder (o_id order) db in
        mkOrderRun (res_json finalOrder) (Some total) db
  end.
End Routes.

Definition patch_api_orders_status (id : string) (status : OrderStatus) (db : Db)
    : Response Order * Db :=
  let '(order, db) := updateOrderStatus id status db in
  match order with
  | None => (res_status 404 "Order not found", db)
  | Some order => (res_json order, db)
  end.

Definition get_api_partner_procurement_list (db : Db)
    : Response (list ProcurementRow) :=
  res_json (getAggregatedProcurementList db).


Definition get_api_partner_earnings (db : Db) : Response Earnings :=
  res_json (getPartnerEarnings None db).

(** [now] is the value of [new Date()]. *)
Definition post_api_partner_mark_delivered (body : DeliveryBody) (now : nat)
    (db : Db) : Response Delivery * Db :=
  match insertDeliverySchema_parse body with
  | None => (res_status 400 "Failed to mark as delivered", db)
  | Some orderId =>
      let '(delivery, db) := createDelivery (mkInsertDelivery orderId now) db in
      let db := (updateOrderStatus orderId DELIVERED db).2 in
      (res_json delivery, db)
  end.

(** ** Further methods of [DatabaseStorage] and their routes *)

Definition set_products (f : list Product → list Product) (db : Db) : Db :=
  mkDb (users db) (f (products db)) (orders db) (orderItems db)
       (procurementPrices db) (deliveries db).

(** The storage object: its private flag [initialized] and the store. *)
Record Storage := mkStorage {
  initialized : bool;
  store : Db
}.

(** The [name] and [unit] of the rows of [defaultProducts]. *)
Definition defaultProducts : list (string * string) :=
  [("Onions", "kg"); ("Potatoes", "kg"); ("Cooking Oil", "ltr");
   ("Tomatoes", "kg")].

(** [db.insert(products).values(rows)]: the rows are appended in order, each
    under a new identifier. *)
Definition insert_products (values : list (string * string)) (db : Db) : Db :=
  fold_left
    (λ db v, set_products (λ t, t ++ [mkProduct (new_id (p_id <$> t)) v.1 v.2]) db)
    values db.

Definition initializeDefaultData (s : Storage) : Storage :=
  if initialized s then s
  else
    let existingProducts := take 1 (products (store s)) in
    if bool_decide (0 < length existingProducts)
    then mkStorage true (store s)
    else mkStorage true (insert_products defaultProducts (store s)).

Definition getAllProducts (s : Storage) : list Product * Storage :=
  let s := initializeDefaultData s in
  (products (store s), s).

Definition get_api_products (s : Storage) : Response (list Product) * Storage :=
  let '(products, s) := getAllProducts s in
  (res_json products, s).

(** The result of [getOrdersByUser] carries no [user]. *)
Definition getOrdersByUser (userId : string) (db : Db) : list OrderWithItems :=
  let userOrders := filter (λ o, o_userId o = Some userId) (orders db) in
  (λ order, mkOrderWithItems order (getOrderItems (o_id order) db) None)
    <$> userOrders.

Definition getAllOrders (db : Db) : list OrderWithItems :=
  let allOrders := orders db in
  (λ order,
     let items := getOrderItems (o_id order) db in
     let user := if truthy_string (o_userId order)
                 then getUser (default "" (o_userId order)) db
                 else None in
     mkOrderWithItems order items user)
    <$> allOrders.


Definition get_api_orders_user (userId : string) (db : Db)
    : Response (list OrderWithItems) :=
  res_json (getOrdersByUser userId db).

Definition get_api_orders (db : Db) : Response (list OrderWithItems) :=
  res_json (getAllOrders db).

(** ** The order form of the vendor ([OrderForm] in [order-form.tsx])

    The state [quantities] is an object keyed by product id; it is a finite
    map here, and the order in which [Object.entries] lists it is the one of
    [map_to_list], which the properties below do not depend on. *)

Definition Math_max (a b : number) : number :=
  if bool_decide (a ≤ b)%Qc then b else a.

(** The state update that [updateQuantity] passes to [setQuantities]. *)
Definition updateQuantity (productId : string) (change : number)
    (prev : gmap string number) : gmap string number :=
  let current := or_zero (prev !! productId) in
  let newQuantity := Math_max 0%Qc (current + change)%Qc in
  <[productId := newQuantity]> prev.

(** A run of clicks on the plus and minus buttons, oldest first. *)
Definition clicks_from (quantities : gmap string number)
    (clicks : list (string * number)) : gmap string number :=
  fold_left (λ q c, updateQuantity c.1 c.2 q) clicks quantities.

(** [handlePlaceOrder]: the items handed to the mutation, or [None] when the
    form shows the toast and returns. *)
Definition handlePlaceOrder (quantities : gmap string number)
    : option (list OrderLine) :=
  let items := (λ e, mkOrderLine e.1 e.2)
                 <$> filter (λ e, (0 < e.2)%Qc) (map_to_list quantities) in
  if bool_decide (length items = 0) then None else Some items.

(** The [user-id] header of the request: [user?.id || ''] of the form. *)
Definition user_id_header (user : option User) : option string :=
  Some (match user with
        | Some u => if bool_decide (u_id u = "") then "" else u_id u
        | None => ""
        end).

(** ** Specification-side definitions *)

Definition sum_numbers (l : list number) : number := foldr Qcplus 0%Qc l.

(** The price of a product in a price snapshot, as the specification words
    it: the price that has been set for it (the last row, when several have
    been), and 0 when none has. *)
Definition snapshot_price (parseFloat : string → number)
    (snapshot : list ProcurementPrice) (pid : string) : number :=
  match last (filter (λ r, pp_productId r = pid) snapshot) with
  | Some r => parseFloat (pp_price r)
  | None => 0%Qc
  end.

(** The order total of section 4.1: the convenience fee plus the subtotals. *)
Definition order_total (parseFloat : string → number)
    (snapshot : list ProcurementPrice) (items : list OrderLine) : number :=
  (Q2Qc 40 +
   sum_numbers ((λ item, snapshot_price parseFloat snapshot (productId item)
                         * quantity item) <$> items))%Qc.

(** The columns of an order item that the handler supplies. *)
Definition item_columns (oi : OrderItem) : InsertOrderItem :=
  mkInsertOrderItem (oi_orderId oi) (oi_productId oi) (oi_quantity oi)
                    (oi_price oi).

(** The rows the handler is to persist for an order, identifiers apart. *)
Definition expected_items (parseFloat : string → number)
    (toString : number → string) (snapshot : list ProcurementPrice)
    (orderId : string) (items : list OrderLine) : list InsertOrderItem :=
  (λ item, mkInsertOrderItem orderId (productId item) (quantity item)
             (toString (snapshot_price parseFloat snapshot (productId item))))
  <$> items.

(** An order item counts towards procurement when its parent order, the
    order whose id it carries, has status [PLACED]. *)
Definition parent_placed (orders : list Order) (oi : OrderItem) : Prop :=
  Exists (λ o, o_id o = oi_orderId oi ∧ o_status o = PLACED) orders.

#[global] Instance parent_placed_dec orders oi : Decision (parent_placed orders oi).
Proof. unfold parent_placed. apply _. Defined.

(** The outstanding demand for a product: the sum of the quantities of the
    order items of that product whose parent order is [PLACED]. *)
Definition placed_demand (db : Db) (pid : string) : number :=
  sum_numbers
    (oi_quantity <$>
       filter (λ oi, oi_productId oi = pid ∧ parent_placed (orders db) oi)
              (orderItems db)).

(** The quantity the joined rows hold for a product. *)
Definition row_demand (k : string) (rows : list ProcurementRow) : number :=
  sum_numbers (pr_totalQuantity <$> filter (λ r, pr_productId r = k) rows).

(** The quantity an aggregation map holds for a product, 0 when it has no
    entry for it. *)
Definition quantity_in (k : string) (m : list (string * Aggregate)) : number :=
  from_option ag_totalQuantity 0%Qc (Map_get k m).

(** The store of the examples: onions priced at 10, potatoes not priced. *)
Definition sample_db : Db :=
  mkDb [mkUser "u1" "v@example.org" "Vendor"]
       [mkProduct "A" "Onions" "kg"; mkProduct "B" "Potatoes" "kg"]
       []
       []
       [mkProcurementPrice "A" "10" 0]
       [].

(** Two [PLACED] orders asking for 2 and 5 of onions, and a delivered order
    asking for 4 of potatoes. *)
Definition procurement_db : Db :=
  mkDb [mkUser "u1" "v@example.org" "Vendor"]
       [mkProduct "A" "Onions" "kg"; mkProduct "B" "Potatoes" "kg"]
       [mkOrder "o1" (Some "u1") PLACED "0";
        mkOrder "o2" (Some "u1") PLACED "0";
        mkOrder "o3" (Some "u1") DELIVERED "0"]
       [mkOrderItem "i1" "o1" "A" (Q2Qc 2) "10";
        mkOrderItem "i2" "o3" "B" (Q2Qc 4) "0";
        mkOrderItem "i3" "o2" "A" (Q2Qc 5) "10"]
       [mkProcurementPrice "A" "10" 0]
       [].

Definition sample_items : list OrderLine :=
  [mkOrderLine "A" (Q2Qc 2); mkOrderLine "B" (Q2Qc 3)].

(** * Properties *)

(** ** The price map *)

Lemma Map_new_snoc (l : list (string * number)) (e : string * number) :
  Map_new (l ++ [e]) = <[e.1 := e.2]> (Map_new l).
Proof. unfold Map_new. by rewrite fold_left_app. Qed.

Lemma priceMap_of_lookup parseFloat (prices : list ProcurementPrice) pid :
  priceMap_of parseFloat prices !! pid
  = (λ r, parseFloat (pp_price r))
      <$> last (filter (λ r, pp_productId r = pid) prices).
Proof.
  unfold priceMap_of.
  induction prices as [|r prices IH] using rev_ind; [done|].
  rewrite fmap_app, filter_app. simpl. rewrite Map_new_snoc. simpl.
  destruct (decide (pp_productId r = pid)) as [Heq|Hne].
  - rewrite filter_cons_True by done. rewrite filter_nil, last_snoc.
    subst pid. by rewrite lookup_insert_eq.
  - rewrite lookup_insert_ne by done.
    rewrite filter_cons_False by done. rewrite filter_nil, app_nil_r.
    exact IH.
Qed.

Lemma or_zero_Some (p : number) : or_zero (Some p) = p.
Proof. unfold or_zero. by destruct (decide (p = 0%Qc)) as [->|]. Qed.

Lemma price_used parseFloat (prices : list ProcurementPrice) pid :
  or_zero (priceMap_of parseFloat prices !! pid)
  = snapshot_price parseFloat prices pid.
Proof.
  rewrite priceMap_of_lookup. unfold snapshot_price.
  destruct (last _) as [r|]; simpl; [apply or_zero_Some | done].
Qed.

(** ** The loop over the line items *)

Lemma order_loop_total toString (pm : gmap string number) order items t d :
  (fold_left (order_item_step toString pm order) items (t, d)).1
  = (t + sum_numbers ((λ item, or_zero (pm !! productId item) * quantity item)
                        <$> items))%Qc.
Proof.
  revert t d. induction items as [|item items IH]; intros t d.
  - simpl. by rewrite Qcplus_0_r.
  - cbn [fold_left].
    rewrite (surjective_pairing (order_item_step toString pm order (t, d) item)).
    rewrite IH. simpl. by rewrite Qcplus_assoc.
Qed.

Lemma order_loop_items toString (pm : gmap string number) order items t d :
  ∃ rows,
    orderItems (fold_left (order_item_step toString pm order) items (t, d)).2
    = orderItems d ++ rows
    ∧ item_columns <$> rows
      = (λ item, mkInsertOrderItem (o_id order) (productId item) (quantity item)
                   (toString (or_zero (pm !! productId item)))) <$> items.
Proof.
  revert t d. induction items as [|item items IH]; intros t d.
  - exists []. simpl. by rewrite app_nil_r.
  - cbn [fold_left].
    rewrite (surjective_pairing (order_item_step toString pm order (t, d) item)).
    destruct (IH (order_item_step toString pm order (t, d) item).1
                 (order_item_step toString pm order (t, d) item).2)
      as (rows & Hrows & Hcols).
    eexists (_ :: rows). split.
    + rewrite Hrows. simpl. by rewrite <- app_assoc.
    + rewrite !fmap_cons. by rewrite Hcols.
Qed.

Lemma order_loop_frame toString (pm : gmap string number) order items t d :
  let d' := (fold_left (order_item_step toString pm order) items (t, d)).2 in
  users d' = users d ∧ products d' = products d ∧ orders d' = orders d
  ∧ procurementPrices d' = procurementPrices d ∧ deliveries d' = deliveries d.
Proof.
  revert t d. induction items as [|item items IH]; intros t d; [done|].
  cbn [fold_left]. cbv zeta.
  rewrite (surjective_pairing (order_item_step toString pm order (t, d) item)).
  pose proof (IH (order_item_step toString pm order (t, d) item).1
                 (order_item_step toString pm order (t, d) item).2) as H.
  cbv zeta in H. destruct H as (H1 & H2 & H3 & H4 & H5).
  by rewrite H1, H2, H3, H4, H5.
Qed.

(** Unfolding of a run that passes validation and carries a user id. *)
Lemma post_api_orders_run parseFloat toString body userId db :
  Forall (λ item, (1 ≤ quantity item)%Qc) body →
  truthy_string userId = true →
  let created :=
    createOrder (mkInsertOrder (default "" userId) PLACED "0") db in
  let looped :=
    fold_left (order_item_step toString
                 (priceMap_of parseFloat (procurementPrices db)) created.1)
              body (Q2Qc 40, created.2) in
  let final := (updateOrderStatus (o_id created.1) PLACED looped.2).2 in
  post_api_orders parseFloat toString body userId db
  = mkOrderRun (res_json (getOrder (o_id created.1) final))
               (Some looped.1) final.
Proof.
  intros Hq Hu. unfold post_api_orders, createOrderSchema_parse.
  assert (forallb (λ item, bool_decide (1 ≤ quantity item)%Qc) body = true) as ->.
  { apply forallb_forall. intros item Hin.
    apply bool_decide_eq_true. rewrite Forall_forall in Hq.
    apply Hq. by apply list_elem_of_In. }
  rewrite Hu. simpl.
  unfold getLatestProcurementPrices.
  by destruct (fold_left _ body _).
Qed.

(** ** Identifiers *)

Lemma new_id_fresh (taken : list string) : new_id taken ∉ taken.
Proof. apply infinite_is_fresh. Qed.

Lemma update_absent_id id status (t : list Order) :
  id ∉ (o_id <$> t) →
  (λ o, if decide (o_id o = id) then with_status status o else o) <$> t = t.
Proof.
  induction t as [|o t IH]; [done|].
  rewrite fmap_cons, not_elem_of_cons. intros [Hne Hnot].
  rewrite fmap_cons, IH by done.
  destruct (decide (o_id o = id)); [congruence | done].
Qed.

Lemma filter_absent_id id (t : list Order) :
  id ∉ (o_id <$> t) → filter (λ o, o_id o = id) t = [].
Proof.
  induction t as [|o t IH]; [done|].
  rewrite fmap_cons, not_elem_of_cons. intros [Hne Hnot].
  rewrite filter_cons_False by congruence. by apply IH.
Qed.

(** ** Effect of a successful [POST /api/orders] *)

Lemma post_api_orders_effect parseFloat toString body userId db :
  Forall (λ item, (1 ≤ quantity item)%Qc) body →
  truthy_string userId = true →
  let run := post_api_orders parseFloat toString body userId db in
  let orderId := new_id (o_id <$> orders db) in
  let order := mkOrder orderId (Some (default "" userId)) PLACED "0" in
  run_total run = Some (order_total parseFloat (procurementPrices db) body)
  ∧ orders (run_db run) = orders db ++ [order]
  ∧ (∃ rows, orderItems (run_db run) = orderItems db ++ rows
       ∧ item_columns <$> rows
         = expected_items parseFloat toString (procurementPrices db) orderId body)
  ∧ users (run_db run) = users db
  ∧ products (run_db run) = products db
  ∧ procurementPrices (run_db run) = procurementPrices db
  ∧ deliveries (run_db run) = deliveries db
  ∧ run_response run
    = res_json (Some (mkOrderWithItems order
                        (getOrderItems orderId (run_db run))
                        (getUser (default "" userId) db))).
Proof.
  intros Hq Hu run orderId order. subst run.
  rewrite post_api_orders_run by done. cbv zeta.
  set (pm := priceMap_of parseFloat (procurementPrices db)).
  set (created := createOrder _ db).
  change created.1 with order.
  set (looped := fold_left _ body _).
  pose proof (order_loop_total toString pm order body (Q2Qc 40) created.2) as Ht.
  destruct (order_loop_items toString pm order body (Q2Qc 40) created.2)
    as (rows & Hrows & Hcols).
  pose proof (order_loop_frame toString pm order body (Q2Qc 40) created.2) as Hf.
  cbv zeta in Hf. fold looped in Ht, Hrows, Hf.
  destruct Hf as (Hus & Hps & Hos & Hpp & Hds).
  assert (orders (updateOrderStatus orderId PLACED looped.2).2
          = orders db ++ [order]) as Horders.
  { simpl. rewrite Hos. simpl. rewrite fmap_app.
    rewrite update_absent_id by apply new_id_fresh.
    simpl. by rewrite decide_True. }
  assert (∀ pid, or_zero (pm !! pid)
                 = snapshot_price parseFloat (procurementPrices db) pid) as Hprice.
  { intros pid. apply price_used. }
  split_and!.
  - simpl. rewrite Ht. unfold order_total. do 3 f_equal.
    apply list_fmap_ext. intros ? item ?. by rewrite Hprice.
  - exact Horders.
  - exists rows. split; [simpl; by rewrite Hrows|].
    rewrite Hcols. unfold expected_items.
    apply list_fmap_ext. intros ? item ?. by rewrite Hprice.
  - simpl. by rewrite Hus.
  - simpl. by rewrite Hps.
  - simpl. by rewrite Hpp.
  - simpl. by rewrite Hds.
  - cbn [run_response run_db]. do 2 f_equal. unfold getOrder.
    change (o_id order) with orderId.
    rewrite Horders, filter_app, filter_absent_id by apply new_id_fresh.
    rewrite filter_cons_True by done. simpl.
    unfold getUser. simpl. rewrite Hus.
    destruct userId as [u|]; [|done]. simpl in *.
    by rewrite Hu.
Qed.

Lemma last_row_of_product (before after : list ProcurementPrice) r :
  Forall (λ r', pp_productId r' ≠ pp_productId r) after →
  last (filter (λ r', pp_productId r' = pp_productId r) (before ++ r :: after))
  = Some r.
Proof.
  intros Hafter.
  rewrite filter_app, filter_cons_True by done.
  assert (filter (λ r', pp_productId r' = pp_productId r) after = []) as ->.
  { induction Hafter as [|r' after Hne _ IH]; [done|].
    by rewrite filter_cons_False. }
  by rewrite last_snoc.
Qed.

(** * The claims *)

(** C1.  For an order request whose quantities are all at least 1, sent with a
    user id, the total the handler computes is 40 plus the sum over the line
    items of price times quantity, where the price of a line is the price of
    its product in the snapshot read when the order is placed and 0 when the
    product has no price; no error response is produced; and exactly one
    order item is persisted per line, in order, carrying the product, the
    quantity and that price under the identifier of the order just created. *)
Theorem order_total_is_fee_plus_subtotals parseFloat toString body userId db :
  Forall (λ item, (1 ≤ quantity item)%Qc) body →
  truthy_string userId = true →
  let run := post_api_orders parseFloat toString body userId db in
  let snapshot := getLatestProcurementPrices db in
  ∃ order rows finalOrder,
    run_total run
    = Some ((Q2Qc 40 +
             sum_numbers ((λ item, snapshot_price parseFloat snapshot (productId item)
                                   * quantity item) <$> body))%Qc)
    ∧ run_response run = res_json (Some finalOrder)
    ∧ (o_id order ∉ o_id <$> orders db)
    ∧ orders (run_db run) = orders db ++ [order]
    ∧ orderItems (run_db run) = orderItems db ++ rows
    ∧ length rows = length body
    ∧ item_columns <$> rows
      = (λ item, mkInsertOrderItem (o_id order) (productId item) (quantity item)
                   (toString (snapshot_price parseFloat snapshot (productId item))))
        <$> body.
Proof.
  intros Hq Hu run snapshot.
  destruct (post_api_orders_effect parseFloat toString body userId db Hq Hu)
    as (Ht & Ho & (rows & Hrows & Hcols) & _ & _ & _ & _ & Hresp).
  exists (mkOrder (new_id (o_id <$> orders db)) (Some (default "" userId))
                 PLACED "0"), rows.
  eexists. split_and!.
  - exact Ht.
  - exact Hresp.
  - apply new_id_fresh.
  - exact Ho.
  - exact Hrows.
  - apply (f_equal length) in Hcols. unfold expected_items in Hcols.
    by rewrite !length_fmap in Hcols.
  - exact Hcols.
Qed.

Lemma order_total_is_fee_plus_subtotals_witness :
  Forall (λ item, (1 ≤ quantity item)%Qc) sample_items
  ∧ truthy_string (Some "u1") = true
  ∧ run_total (post_api_orders sample_parseFloat sample_toString sample_items
                               (Some "u1") sample_db)
    = Some (Q2Qc 60).
Proof.
  assert (Forall (λ item, (1 ≤ quantity item)%Qc) sample_items) as Hq.
  { repeat constructor; by vm_compute. }
  split; [exact Hq|]. split; [reflexivity|].
  destruct (order_total_is_fee_plus_subtotals sample_parseFloat sample_toString
              sample_items (Some "u1") sample_db Hq eq_refl)
    as (order & rows & finalOrder & Ht & _).
  rewrite Ht. reflexivity.
Defined.

(** C4.  After a successful [POST /api/orders] the order row that was created
    holds the placeholder ["0"] in [total], whatever the items and prices (the
    handler computes the total of C1 and never writes it); the order read
    back for the response shows the same row; the status is [PLACED], the
    user id is the caller's and the order items are those of the request. *)
Theorem order_total_placeholder_is_kept parseFloat toString body userId db :
  Forall (λ item, (1 ≤ quantity item)%Qc) body →
  truthy_string userId = true →
  let run := post_api_orders parseFloat toString body userId db in
  ∃ order rows finalOrder,
    orders (run_db run) = orders db ++ [order]
    ∧ o_total order = "0"
    ∧ o_status order = PLACED
    ∧ o_userId order = userId
    ∧ run_response run = res_json (Some finalOrder)
    ∧ owi_order finalOrder = order
    ∧ run_total run
      = Some (order_total parseFloat (getLatestProcurementPrices db) body)
    ∧ orderItems (run_db run) = orderItems db ++ rows
    ∧ item_columns <$> rows
      = expected_items parseFloat toString (getLatestProcurementPrices db)
                       (o_id order) body.
Proof.
  intros Hq Hu run.
  destruct (post_api_orders_effect parseFloat toString body userId db Hq Hu)
    as (Ht & Ho & (rows & Hrows & Hcols) & _ & _ & _ & _ & Hresp).
  exists (mkOrder (new_id (o_id <$> orders db)) (Some (default "" userId))
                 PLACED "0"), rows.
  eexists. split_and!; [exact Ho | done | done | | exact Hresp | done
                        | exact Ht | exact Hrows | exact Hcols].
  simpl. destruct userId as [u|]; [done | discriminate].
Qed.

Lemma order_total_placeholder_is_kept_witness :
  Forall (λ item, (1 ≤ quantity item)%Qc) sample_items
  ∧ truthy_string (Some "u1") = true
  ∧ o_total <$> orders (run_db (post_api_orders sample_parseFloat sample_toString
                                  sample_items (Some "u1") sample_db))
    = ["0"].
Proof.
  assert (Forall (λ item, (1 ≤ quantity item)%Qc) sample_items) as Hq.
  { repeat constructor; by vm_compute. }
  split; [exact Hq|]. split; [reflexivity|].
  destruct (order_total_placeholder_is_kept sample_parseFloat sample_toString
              sample_items (Some "u1") sample_db Hq eq_refl)
    as (order & rows & finalOrder & Ho & Htot & _).
  rewrite Ho. simpl. by rewrite Htot.
Defined.

(** C9.  The order total depends only on the items and on the price snapshot:
    two runs with the same items and the same snapshot compute the same
    total, whatever else the store holds and whoever the caller is.  A run
    leaves the price rows, and so the price map built from them, as they
    were; repeating the request on the store the first run left therefore
    computes the same total again. *)
Theorem order_total_repeatable parseFloat toString body userId userId' db db' :
  Forall (λ item, (1 ≤ quantity item)%Qc) body →
  truthy_string userId = true →
  truthy_string userId' = true →
  getLatestProcurementPrices db' = getLatestProcurementPrices db →
  let run := post_api_orders parseFloat toString body userId db in
  run_total (post_api_orders parseFloat toString body userId' db') = run_total run
  ∧ getLatestProcurementPrices (run_db run) = getLatestProcurementPrices db
  ∧ priceMap_of parseFloat (getLatestProcurementPrices (run_db run))
    = priceMap_of parseFloat (getLatestProcurementPrices db)
  ∧ run_total (post_api_orders parseFloat toString body userId (run_db run))
    = run_total run.
Proof.
  intros Hq Hu Hu' Hsame run.
  destruct (post_api_orders_effect parseFloat toString body userId db Hq Hu)
    as (Ht & _ & _ & _ & _ & Hpp & _).
  destruct (post_api_orders_effect parseFloat toString body userId' db' Hq Hu')
    as (Ht' & _).
  destruct (post_api_orders_effect parseFloat toString body userId (run_db run)
              Hq Hu) as (Ht2 & _).
  unfold getLatestProcurementPrices in *. fold run in Ht, Hpp.
  split_and!.
  - by rewrite Ht', Ht, Hsame.
  - exact Hpp.
  - by rewrite Hpp.
  - by rewrite Ht2, Ht, Hpp.
Qed.

Lemma order_total_repeatable_witness :
  Forall (λ item, (1 ≤ quantity item)%Qc) sample_items
  ∧ truthy_string (Some "u1") = true
  ∧ truthy_string (Some "u2") = true
  ∧ getLatestProcurementPrices (set_orders (λ _, []) sample_db)
    = getLatestProcurementPrices sample_db
  ∧ run_total (post_api_orders sample_parseFloat sample_toString sample_items
                 (Some "u2") (set_orders (λ _, []) sample_db))
    = run_total (post_api_orders sample_parseFloat sample_toString sample_items
                   (Some "u1") sample_db).
Proof.
  assert (Forall (λ item, (1 ≤ quantity item)%Qc) sample_items) as Hq.
  { repeat constructor; by vm_compute. }
  split; [exact Hq|]. do 3 (split; [reflexivity|]).
  exact (proj1 (order_total_repeatable sample_parseFloat sample_toString
                  sample_items (Some "u1") (Some "u2") sample_db
                  (set_orders (λ _, []) sample_db) Hq eq_refl eq_refl eq_refl)).
Defined.

(** C10.  An empty [items] array passes validation, and with a user id the
    request succeeds: an order with status [PLACED] is created, no order item
    is inserted, the computed total is exactly 40 and the response is the
    order read back, not an error. *)
Theorem empty_order_is_accepted parseFloat toString userId db :
  truthy_string userId = true →
  let run := post_api_orders parseFloat toString [] userId db in
  createOrderSchema_parse [] = Some []
  ∧ run_total run = Some (Q2Qc 40)
  ∧ orderItems (run_db run) = orderItems db
  ∧ ∃ order finalOrder,
      orders (run_db run) = orders db ++ [order]
      ∧ o_status order = PLACED
      ∧ run_response run = res_json (Some finalOrder)
      ∧ owi_order finalOrder = order.
Proof.
  intros Hu run.
  destruct (post_api_orders_effect parseFloat toString [] userId db
              (Forall_nil_2 _) Hu)
    as (Ht & Ho & (rows & Hrows & Hcols) & _ & _ & _ & _ & Hresp).
  fold run in Ht, Ho, Hrows, Hresp.
  split_and!.
  - reflexivity.
  - rewrite Ht. unfold order_total. simpl. by rewrite Qcplus_0_r.
  - destruct rows; [by rewrite Hrows, app_nil_r | discriminate].
  - eexists _, _. split_and!; [exact Ho | done | exact Hresp | done].
Qed.

Lemma empty_order_is_accepted_witness :
  truthy_string (Some "u1") = true
  ∧ run_total (post_api_orders sample_parseFloat sample_toString []
                 (Some "u1") sample_db) = Some (Q2Qc 40)
  ∧ length (orders (run_db (post_api_orders sample_parseFloat sample_toString []
                              (Some "u1") sample_db))) = 1.
Proof.
  split; [reflexivity|].
  destruct (empty_order_is_accepted sample_parseFloat sample_toString
              (Some "u1") sample_db eq_refl)
    as (_ & Ht & _ & order & finalOrder & Ho & _).
  split; [exact Ht|]. by rewrite Ho.
Defined.

(** C5.  [getLatestProcurementPrices] returns the whole price table, earlier
    rows of a product included; when the table is [before ++ r :: after] and
    no row of [after] is for the product of [r], the price map holds the
    price of [r] for that product, and a line item of that product is
    accumulated and persisted with that price. *)
Theorem latest_prices_last_row_wins parseFloat toString db before r after :
  procurementPrices db = before ++ r :: after →
  Forall (λ r', pp_productId r' ≠ pp_productId r) after →
  let priceMap := priceMap_of parseFloat (getLatestProcurementPrices db) in
  getLatestProcurementPrices db = before ++ r :: after
  ∧ priceMap !! pp_productId r = Some (parseFloat (pp_price r))
  ∧ ∀ order total d q,
      let st := order_item_step toString priceMap order (total, d)
                  (mkOrderLine (pp_productId r) q) in
      st.1 = (total + parseFloat (pp_price r) * q)%Qc
      ∧ item_columns <$> orderItems st.2
        = (item_columns <$> orderItems d)
          ++ [mkInsertOrderItem (o_id order) (pp_productId r) q
                (toString (parseFloat (pp_price r)))].
Proof.
  intros Hrows Hafter priceMap. subst priceMap.
  unfold getLatestProcurementPrices. rewrite Hrows.
  assert (priceMap_of parseFloat (before ++ r :: after) !! pp_productId r
          = Some (parseFloat (pp_price r))) as Hget.
  { by rewrite priceMap_of_lookup, last_row_of_product. }
  split_and!; [done | exact Hget |].
  intros order total d q. unfold order_item_step. simpl.
  rewrite Hget, or_zero_Some. split; [done|].
  by rewrite fmap_app.
Qed.

Lemma latest_prices_last_row_wins_witness :
  let db := (setProcurementPrice (mkInsertProcurementPrice "A" "12") 1
               sample_db).2 in
  procurementPrices db
  = [mkProcurementPrice "A" "10" 0] ++ mkProcurementPrice "A" "12" 1 :: []
  ∧ Forall (λ r', pp_productId r' ≠ "A") []
  ∧ length (getLatestProcurementPrices db) = 2
  ∧ priceMap_of sample_parseFloat (getLatestProcurementPrices db) !! "A"
    = Some (Q2Qc 12).
Proof.
  intros db. split; [reflexivity|]. split; [constructor|].
  destruct (latest_prices_last_row_wins sample_parseFloat sample_toString db
              [mkProcurementPrice "A" "10" 0] (mkProcurementPrice "A" "12" 1) []
              eq_refl (Forall_nil_2 _)) as (Hall & Hget & _).
  split; [by rewrite Hall | exact Hget].
Defined.

(** ** Partner earnings *)

Lemma delivered_count (l : list Order) :
  length (filter (λ o, o_status o = DELIVERED) l)
  = length (filter (λ s, s = DELIVERED) (o_status <$> l)).
Proof.
  induction l as [|o l IH]; [done|].
  rewrite fmap_cons, !filter_cons.
  destruct (decide (o_status o = DELIVERED)); simpl; by rewrite IH.
Qed.

(** C3.  [totalDeliveries] is the number of orders whose status is
    [DELIVERED] and [totalEarnings] is exactly 40 times that number, zero
    included; a store whose orders have the same statuses gives the same
    result, whatever the orders otherwise hold and whatever their items. *)
Theorem partner_earnings_flat_fee partnerId db db' :
  o_status <$> orders db' = o_status <$> orders db →
  let earnings := getPartnerEarnings partnerId db in
  totalDeliveries earnings
  = length (filter (λ s, s = DELIVERED) (o_status <$> orders db))
  ∧ totalEarnings earnings = 40 * totalDeliveries earnings
  ∧ getPartnerEarnings partnerId db' = earnings.
Proof.
  intros Hsame earnings. subst earnings. unfold getPartnerEarnings. simpl.
  split_and!.
  - apply delivered_count.
  - lia.
  - by rewrite !delivered_count, Hsame.
Qed.

Lemma partner_earnings_flat_fee_witness :
  let delivered := mkOrder "o" (Some "u1") DELIVERED "0" in
  let db := set_orders (λ _, [delivered; delivered; delivered]) sample_db in
  let db' := set_orders (λ _, [mkOrder "x" None DELIVERED "75";
                               mkOrder "y" (Some "u2") DELIVERED "0";
                               mkOrder "z" None DELIVERED "1"])
                        (set_orderItems (λ _, []) sample_db) in
  o_status <$> orders db' = o_status <$> orders db
  ∧ getPartnerEarnings None db = mkEarnings 3 120
  ∧ getPartnerEarnings None db' = mkEarnings 3 120.
Proof.
  intros delivered db db'. split; [reflexivity|]. split; [reflexivity|].
  rewrite (proj2 (proj2 (partner_earnings_flat_fee None db db' eq_refl))).
  reflexivity.
Defined.

(** C8.  The result of [getPartnerEarnings] is the same for every [partnerId],
    present or absent: the argument is not used, and the earnings route,
    which passes none, answers with that same result. *)
Theorem partner_earnings_ignore_partner (partnerId partnerId' : option string) db :
  getPartnerEarnings partnerId db = getPartnerEarnings partnerId' db
  ∧ get_api_partner_earnings db = res_json (getPartnerEarnings partnerId db).
Proof. split; reflexivity. Qed.

(** ** Status updates *)

Lemma updateOrderStatus_frame id status db :
  let db' := (updateOrderStatus id status db).2 in
  users db' = users db ∧ products db' = products db
  ∧ orderItems db' = orderItems db
  ∧ procurementPrices db' = procurementPrices db
  ∧ deliveries db' = deliveries db
  ∧ o_id <$> orders db' = o_id <$> orders db.
Proof.
  simpl. split_and!; try done.
  rewrite <- list_fmap_compose. apply list_fmap_ext.
  intros ? o ?. simpl. by destruct (decide (o_id o = id)).
Qed.

Lemma updateOrderStatus_status id status db o :
  o ∈ orders (updateOrderStatus id status db).2 →
  o_id o = id → o_status o = status.
Proof.
  simpl. rewrite list_elem_of_fmap. intros (o0 & -> & _).
  destruct (decide (o_id o0 = id)); [done | congruence].
Qed.

Lemma updateOrderStatus_present id status db :
  (id ∈ o_id <$> orders db) →
  ∃ o, o ∈ orders (updateOrderStatus id status db).2 ∧ o_id o = id.
Proof.
  rewrite list_elem_of_fmap. intros (o & Hid & Hin).
  exists (with_status status o). split; [|done].
  simpl. apply list_elem_of_fmap. exists o.
  by rewrite decide_True.
Qed.

Lemma updateOrderStatus_others id status db o :
  o_id o ≠ id →
  o ∈ orders (updateOrderStatus id status db).2 ↔ o ∈ orders db.
Proof.
  intros Hne. simpl. rewrite list_elem_of_fmap. split.
  - intros (o0 & -> & Hin). destruct (decide (o_id o0 = id)); [|done].
    by destruct Hne.
  - intros Hin. exists o. by rewrite decide_False.
Qed.

Lemma updateOrderStatus_returning id status db :
  (id ∈ o_id <$> orders db) →
  ∃ o, (updateOrderStatus id status db).1 = Some o
       ∧ o_id o = id ∧ o_status o = status.
Proof.
  rewrite list_elem_of_fmap. intros (o & Hid & Hin). simpl.
  assert (o ∈ filter (λ o, o_id o = id) (orders db)) as Hf.
  { by apply list_elem_of_filter. }
  destruct (filter _ (orders db)) as [|o1 l] eqn:E; [by apply elem_of_nil in Hf|].
  exists (with_status status o1). split; [done|]. split; [|done].
  assert (o1 ∈ filter (λ o, o_id o = id) (orders db)) as H1.
  { rewrite E. apply list_elem_of_here. }
  apply list_elem_of_filter in H1. by destruct H1.
Qed.

Lemma updateOrderStatus_missing id status db :
  (id ∉ o_id <$> orders db) → updateOrderStatus id status db = (None, db).
Proof.
  intros Hnot. unfold updateOrderStatus, set_orders.
  rewrite update_absent_id, filter_absent_id by done.
  by destruct db.
Qed.

(** C6.  [PATCH /api/orders/:id/status] with any of the four statuses: when an
    order with that id exists, whatever its current status, the handler
    answers with the order carrying the supplied status, and afterwards the
    order has that status while the other orders and tables are as before;
    when none exists the answer is 404 and the store is unchanged. *)
Theorem order_status_overwritten id status db :
  let r := patch_api_orders_status id status db in
  ((id ∈ o_id <$> orders db) →
     (∃ order, r.1 = res_json order ∧ o_id order = id ∧ o_status order = status)
     ∧ (∃ o, o ∈ orders r.2 ∧ o_id o = id)
     ∧ (∀ o, o ∈ orders r.2 → o_id o = id → o_status o = status)
     ∧ (∀ o, o_id o ≠ id → o ∈ orders r.2 ↔ o ∈ orders db)
     ∧ o_id <$> orders r.2 = o_id <$> orders db
     ∧ orderItems r.2 = orderItems db ∧ deliveries r.2 = deliveries db)
  ∧ ((id ∉ o_id <$> orders db) →
     r.1 = res_status 404 "Order not found" ∧ r.2 = db).
Proof.
  intros r. subst r. unfold patch_api_orders_status. split.
  - intros Hin.
    destruct (updateOrderStatus_returning id status db Hin) as (o & Hret & Hid & Hst).
    pose proof (updateOrderStatus_frame id status db) as Hf. cbv zeta in Hf.
    destruct Hf as (_ & _ & Hoi & _ & Hd & Hids).
    pose proof (updateOrderStatus_status id status db) as Hstat.
    pose proof (updateOrderStatus_others id status db) as Hoth.
    pose proof (updateOrderStatus_present id status db Hin) as Hpres.
    destruct (updateOrderStatus id status db) as [ret db'].
    simpl in *. subst ret. simpl.
    split_and!; try done. by exists o.
  - intros Hnot. by rewrite updateOrderStatus_missing.
Qed.

Lemma order_status_overwritten_witness :
  let db := set_orders (λ _, [mkOrder "o1" (Some "u1") DELIVERED "0";
                              mkOrder "o2" (Some "u1") PLACED "0"]) sample_db in
  ("o1" ∈ o_id <$> orders db)
  ∧ ("o9" ∉ o_id <$> orders db)
  ∧ o_status <$> orders (patch_api_orders_status "o1" PLACED db).2
    = [PLACED; PLACED]
  ∧ (patch_api_orders_status "o9" PROCURING db).2 = db.
Proof.
  intros db.
  assert ("o1" ∈ o_id <$> orders db) as Hin.
  { apply (bool_decide_unpack _). by vm_compute. }
  assert ("o9" ∉ o_id <$> orders db) as Hnot.
  { apply (bool_decide_unpack _). by vm_compute. }
  split; [exact Hin|]. split; [exact Hnot|]. split; [reflexivity|].
  exact (proj2 (proj2 (order_status_overwritten "o9" PROCURING db) Hnot)).
Defined.

(** C7.  A mark-delivered request whose body identifies an existing order
    creates a delivery row for that order, stamped with the time of the
    request, and sets the status of that order to [DELIVERED]; the response
    is the delivery. *)
Theorem mark_delivered_effects orderId now db :
  (orderId ∈ o_id <$> orders db) →
  let r := post_api_partner_mark_delivered
             (mkDeliveryBody (Some orderId)) now db in
  r.1 = res_json (mkDelivery orderId now)
  ∧ deliveries r.2 = deliveries db ++ [mkDelivery orderId now]
  ∧ (∃ o, o ∈ orders r.2 ∧ o_id o = orderId)
  ∧ (∀ o, o ∈ orders r.2 → o_id o = orderId → o_status o = DELIVERED)
  ∧ (∀ o, o_id o ≠ orderId → o ∈ orders r.2 ↔ o ∈ orders db).
Proof.
  intros Hin r. subst r. unfold post_api_partner_mark_delivered. simpl.
  split_and!; try done.
  - apply (updateOrderStatus_present orderId DELIVERED
             (set_deliveries (λ t, t ++ [mkDelivery orderId now]) db) Hin).
  - apply (updateOrderStatus_status orderId DELIVERED
             (set_deliveries (λ t, t ++ [mkDelivery orderId now]) db)).
  - apply (updateOrderStatus_others orderId DELIVERED
             (set_deliveries (λ t, t ++ [mkDelivery orderId now]) db)).
Qed.

Lemma mark_delivered_effects_witness :
  let db := set_orders (λ _, [mkOrder "o1" (Some "u1") PLACED "0"]) sample_db in
  ("o1" ∈ o_id <$> orders db)
  ∧ deliveries (post_api_partner_mark_delivered
                  (mkDeliveryBody (Some "o1")) 7 db).2 = [mkDelivery "o1" 7]
  ∧ o_status <$> orders (post_api_partner_mark_delivered
                           (mkDeliveryBody (Some "o1")) 7 db).2 = [DELIVERED].
Proof.
  intros db.
  assert ("o1" ∈ o_id <$> orders db) as Hin.
  { apply (bool_decide_unpack _). by vm_compute. }
  split; [exact Hin|].
  destruct (mark_delivered_effects "o1" 7 db Hin) as (_ & Hd & _).
  split; [exact Hd | reflexivity].
Defined.

(** ** The aggregation map *)

Lemma Map_get_None_filter {V} k (m : list (string * V)) :
  Map_get k m = None ↔ (k ∉ fst <$> m).
Proof.
  unfold Map_get. induction m as [|e m IH]; simpl.
  - split; [intros _; apply not_elem_of_nil | done].
  - rewrite filter_cons, not_elem_of_cons.
    destruct (decide (e.1 = k)) as [Heq|Hne]; simpl.
    + split; [done | intros [Hk _]; by destruct Hk].
    + rewrite IH. split; [by intros ? | by intros [_ ?]].
Qed.

Lemma Map_has_spec {V} k (m : list (string * V)) :
  Map_has k m = true ↔ (k ∈ fst <$> m).
Proof.
  unfold Map_has. rewrite bool_decide_eq_true.
  destruct (Map_get k m) as [v|] eqn:E.
  - split; [intros _ | by eauto].
    destruct (decide (k ∈ fst <$> m)) as [|Hnot]; [done|].
    apply Map_get_None_filter in Hnot. congruence.
  - split; [by intros [? ?] |].
    intros Hin. by apply Map_get_None_filter in E.
Qed.

Lemma Map_get_unique {V} k (v : V) (m : list (string * V)) :
  NoDup (fst <$> m) → (k, v) ∈ m → Map_get k m = Some v.
Proof.
  unfold Map_get. induction m as [|e m IH]; intros Hnd Hin.
  - by apply elem_of_nil in Hin.
  - rewrite fmap_cons in Hnd. apply NoDup_cons in Hnd as [Hnot Hnd].
    rewrite filter_cons. apply elem_of_cons in Hin as [<-|Hin].
    + simpl. by rewrite decide_True.
    + destruct (decide (e.1 = k)) as [Heq|Hne]; [|by apply IH].
      destruct Hnot. rewrite Heq. apply list_elem_of_fmap. by exists (k, v).
Qed.

Lemma Map_set_keys {V} k (v : V) (m : list (string * V)) :
  fst <$> Map_set k v m
  = if Map_has k m then fst <$> m else (fst <$> m) ++ [k].
Proof.
  unfold Map_set. destruct (Map_has k m).
  - rewrite <- list_fmap_compose. apply list_fmap_ext.
    intros ? e ?. simpl. by destruct (decide (e.1 = k)).
  - by rewrite fmap_app.
Qed.

Lemma Map_replace_other {V} k k' (v : V) (m : list (string * V)) :
  k ≠ k' →
  filter (λ e, e.1 = k') ((λ e, if decide (e.1 = k) then (k, v) else e) <$> m)
  = filter (λ e, e.1 = k') m.
Proof.
  intros Hkk. induction m as [|e m IH]; [done|].
  rewrite fmap_cons, !filter_cons, IH.
  destruct (decide (e.1 = k)) as [Heq|Hne]; [|done].
  simpl. rewrite !decide_False by congruence. done.
Qed.

Lemma Map_replace_same {V} k (v : V) (m : list (string * V)) :
  filter (λ e, e.1 = k) ((λ e, if decide (e.1 = k) then (k, v) else e) <$> m)
  = (λ _, (k, v)) <$> filter (λ e, e.1 = k) m.
Proof.
  induction m as [|e m IH]; [done|].
  rewrite fmap_cons, !filter_cons, IH.
  destruct (decide (e.1 = k)) as [Heq|Hne]; simpl.
  - by rewrite decide_True.
  - by rewrite decide_False.
Qed.

Lemma Map_get_set {V} k k' (v : V) (m : list (string * V)) :
  Map_get k' (Map_set k v m) = if decide (k = k') then Some v else Map_get k' m.
Proof.
  unfold Map_set. destruct (Map_has k m) eqn:Hhas.
  - unfold Map_get. destruct (decide (k = k')) as [<-|Hkk].
    + rewrite Map_replace_same.
      apply Map_has_spec in Hhas.
      destruct (filter (λ e, e.1 = k) m) as [|e l] eqn:E; [|done].
      assert (Map_get k m = None) as Hnone by (unfold Map_get; by rewrite E).
      apply Map_get_None_filter in Hnone. by destruct Hnone.
    + by rewrite Map_replace_other.
  - assert (Map_get k m = None) as Hnone.
    { unfold Map_has in Hhas. apply bool_decide_eq_false in Hhas.
      destruct (Map_get k m); [destruct Hhas; eauto | done]. }
    unfold Map_get in *. rewrite filter_app, filter_cons, filter_nil.
    destruct (decide (k = k')) as [<-|Hkk]; simpl.
    + rewrite decide_True by done.
      destruct (filter _ m); [done | discriminate].
    + rewrite decide_False by done. by rewrite app_nil_r.
Qed.

(** ** Aggregation by product *)

Lemma aggregate_step_quantity k acc item :
  quantity_in k (aggregate_step acc item)
  = (quantity_in k acc
     + (if decide (pr_productId item = k) then pr_totalQuantity item else 0))%Qc.
Proof.
  unfold quantity_in, aggregate_step.
  destruct (Map_get (pr_productId item) acc) as [existing|] eqn:E;
    rewrite Map_get_set;
    destruct (decide (pr_productId item = k)) as [<-|Hne]; simpl.
  - by rewrite E.
  - by rewrite Qcplus_0_r.
  - by rewrite E, Qcplus_0_l.
  - by rewrite Qcplus_0_r.
Qed.

Lemma aggregate_step_keys acc item :
  fst <$> aggregate_step acc item
  = if decide (pr_productId item ∈ fst <$> acc)
    then fst <$> acc else (fst <$> acc) ++ [pr_productId item].
Proof.
  unfold aggregate_step.
  destruct (Map_get (pr_productId item) acc) as [existing|] eqn:E;
    rewrite Map_set_keys.
  - assert (pr_productId item ∈ fst <$> acc) as Hin.
    { destruct (decide (pr_productId item ∈ fst <$> acc)) as [|Hnot]; [done|].
      apply Map_get_None_filter in Hnot. congruence. }
    rewrite decide_True by done.
    apply Map_has_spec in Hin. by rewrite Hin.
  - apply Map_get_None_filter in E. rewrite decide_False by done.
    destruct (Map_has (pr_productId item) acc) eqn:Hhas; [|done].
    apply Map_has_spec in Hhas. by destruct E.
Qed.

Lemma aggregate_quantity k rows acc :
  quantity_in k (fold_left aggregate_step rows acc)
  = (quantity_in k acc + row_demand k rows)%Qc.
Proof.
  revert acc. induction rows as [|item rows IH]; intros acc.
  - unfold row_demand. simpl. by rewrite Qcplus_0_r.
  - cbn [fold_left]. rewrite IH, aggregate_step_quantity.
    unfold row_demand. rewrite filter_cons.
    destruct (decide (pr_productId item = k)); simpl.
    + by rewrite Qcplus_assoc.
    + by rewrite Qcplus_0_r.
Qed.

Lemma aggregate_keys_NoDup rows acc :
  NoDup (fst <$> acc) → NoDup (fst <$> fold_left aggregate_step rows acc).
Proof.
  revert acc. induction rows as [|item rows IH]; intros acc Hnd; [done|].
  cbn [fold_left]. apply IH. rewrite aggregate_step_keys.
  destruct (decide (pr_productId item ∈ fst <$> acc)) as [|Hnot]; [done|].
  apply NoDup_app. split_and!; [done | | apply NoDup_singleton].
  intros k Hk Hk'. apply list_elem_of_singleton in Hk'. by subst k.
Qed.

Lemma aggregate_keys_elem rows acc k :
  (k ∈ fst <$> fold_left aggregate_step rows acc)
  ↔ (k ∈ fst <$> acc) ∨ (k ∈ pr_productId <$> rows).
Proof.
  revert acc. induction rows as [|item rows IH]; intros acc.
  - simpl. split; [by left | intros [?|H]; [done | by apply elem_of_nil in H]].
  - cbn [fold_left]. rewrite IH, aggregate_step_keys, fmap_cons, elem_of_cons.
    destruct (decide (pr_productId item ∈ fst <$> acc)) as [Hin|Hnot].
    + split; [intros [?|?]; eauto | intros [?|[->|?]]; eauto].
    + rewrite elem_of_app, list_elem_of_singleton.
      split; [intros [[?|?]|?]; eauto | intros [?|[?|?]]; eauto].
Qed.

Lemma aggregated_rows (rows : list ProcurementRow) :
  let out := (λ e, mkProcurementRow e.1 (ag_productName e.2)
                     (ag_totalQuantity e.2) (ag_unit e.2))
             <$> fold_left aggregate_step rows [] in
  NoDup (pr_productId <$> out)
  ∧ (∀ k, (k ∈ pr_productId <$> out) ↔ (k ∈ pr_productId <$> rows))
  ∧ (∀ row, row ∈ out →
       pr_totalQuantity row = row_demand (pr_productId row) rows).
Proof.
  intros out. subst out. set (agg := fold_left aggregate_step rows []).
  assert (pr_productId <$>
            ((λ e, mkProcurementRow e.1 (ag_productName e.2)
                     (ag_totalQuantity e.2) (ag_unit e.2)) <$> agg)
          = fst <$> agg) as Hkeys.
  { rewrite <- list_fmap_compose. by apply list_fmap_ext. }
  assert (NoDup (fst <$> agg)) as Hnd.
  { apply aggregate_keys_NoDup. simpl. apply NoDup_nil_2. }
  rewrite Hkeys. split_and!.
  - exact Hnd.
  - intros k. unfold agg. rewrite aggregate_keys_elem. simpl.
    split; [intros [H|?]; [by apply elem_of_nil in H | done] | by right].
  - intros row Hrow. apply list_elem_of_fmap in Hrow as ([k v] & -> & Hin).
    simpl. pose proof (aggregate_quantity k rows []) as Hq.
    fold agg in Hq. unfold quantity_in in Hq.
    rewrite (Map_get_unique k v agg Hnd Hin) in Hq. simpl in Hq.
    rewrite Hq. unfold Map_get. simpl. by rewrite Qcplus_0_l.
Qed.

(** ** The joins *)

Lemma join_key_absent {B C} (key : B → string) (f : B → list C) k (r : list B) :
  (k ∉ key <$> r) →
  flat_map (λ b, if bool_decide (k = key b) then f b else []) r = [].
Proof.
  induction r as [|b r IH]; [done|].
  rewrite fmap_cons, not_elem_of_cons. intros [Hne Hnot]. simpl.
  rewrite bool_decide_eq_false_2 by done. by apply IH.
Qed.

Lemma join_key_unique {B C} (key : B → string) (f : B → list C) k (r : list B) :
  NoDup (key <$> r) →
  flat_map (λ b, if bool_decide (k = key b) then f b else []) r
  = from_option f [] (head (filter (λ b, key b = k) r)).
Proof.
  induction r as [|b r IH]; [done|].
  rewrite fmap_cons, NoDup_cons. intros [Hnot Hnd]. simpl.
  rewrite filter_cons. destruct (decide (key b = k)) as [Heq|Hne].
  - rewrite bool_decide_eq_true_2 by done. simpl.
    rewrite join_key_absent by congruence. by rewrite app_nil_r.
  - rewrite bool_decide_eq_false_2 by congruence. by apply IH.
Qed.

Lemma head_filter_key_present {B} (key : B → string) k (r : list B) :
  (k ∈ key <$> r) →
  ∃ b, head (filter (λ b, key b = k) r) = Some b ∧ key b = k.
Proof.
  induction r as [|b r IH]; [by intros H; apply elem_of_nil in H|].
  rewrite fmap_cons, elem_of_cons, filter_cons. intros Hin.
  destruct (decide (key b = k)) as [Heq|Hne]; [by exists b|].
  destruct Hin as [Hk|Hin]; [by destruct Hne | by apply IH].
Qed.

Lemma parent_placed_head (ords : list Order) oi :
  NoDup (o_id <$> ords) →
  parent_placed ords oi
  ↔ from_option (λ o, o_status o = PLACED) False
      (head (filter (λ o, o_id o = oi_orderId oi) ords)).
Proof.
  unfold parent_placed. induction ords as [|o ords IH]; intros Hnd.
  - simpl. by rewrite Exists_nil.
  - rewrite fmap_cons, NoDup_cons in Hnd. destruct Hnd as [Hnot Hnd].
    rewrite Exists_cons, filter_cons.
    destruct (decide (o_id o = oi_orderId oi)) as [Heq|Hne]; simpl.
    + split; [|by left]. intros [[_ ?]|Hex]; [done|].
      apply Exists_exists in Hex as (o' & Hin & Hid & _).
      destruct Hnot. rewrite Heq, <- Hid. apply list_elem_of_fmap. by exists o'.
    + rewrite <- IH by done. split; [intros [[? _]|?]; done | by right].
Qed.

Lemma innerJoin_cons {A B} (on : A → B → bool) a (l : list A) (r : list B) :
  innerJoin on (a :: l) r
  = flat_map (λ b, if on a b then [(a, b)] else []) r ++ innerJoin on l r.
Proof. reflexivity. Qed.

Lemma innerJoin_app {A B} (on : A → B → bool) (l1 l2 : list A) (r : list B) :
  innerJoin on (l1 ++ l2) r = innerJoin on l1 r ++ innerJoin on l2 r.
Proof. unfold innerJoin. apply flat_map_app. Qed.

(** Under the keys of the schema every order item meets at most one order and
    exactly one product, so the joined rows are the order items of the
    [PLACED] orders, in order. *)
Lemma placed_rows_items db :
  NoDup (o_id <$> orders db) →
  NoDup (p_id <$> products db) →
  (∀ oi, oi ∈ orderItems db → oi_productId oi ∈ p_id <$> products db) →
  (λ r, (pr_productId r, pr_totalQuantity r)) <$> placed_rows db
  = (λ oi, (oi_productId oi, oi_quantity oi))
      <$> filter (parent_placed (orders db)) (orderItems db).
Proof.
  intros Ho Hp. unfold placed_rows.
  generalize (orderItems db) as items.
  induction items as [|oi items IH]; intros Hint; [done|].
  rewrite innerJoin_cons, innerJoin_app, filter_app, !fmap_app.
  rewrite IH by (intros oi' Hin; apply Hint; by right).
  rewrite filter_cons. clear IH.
  pose proof (parent_placed_head (orders db) oi Ho) as Hplaced.
  rewrite (join_key_unique o_id (λ o, [(oi, o)]) (oi_orderId oi) (orders db) Ho).
  destruct (head (filter (λ o, o_id o = oi_orderId oi) (orders db))) as [o|];
    simpl in *.
  - unfold innerJoin. simpl. rewrite app_nil_r.
    rewrite (join_key_unique p_id (λ p, [(oi, o, p)]) (oi_productId oi)
               (products db) Hp).
    destruct (head_filter_key_present p_id (oi_productId oi) (products db))
      as (p & -> & _); [apply Hint; by left|].
    simpl. rewrite filter_cons, filter_nil. simpl.
    destruct (decide (o_status o = PLACED)) as [Hst|Hst].
    + rewrite decide_True by (by apply Hplaced). done.
    + rewrite decide_False by (intros Hpl; by apply Hplaced in Hpl). done.
  - rewrite decide_False by (intros Hpl; by apply Hplaced in Hpl). done.
Qed.

Lemma sum_by_key {A} (key : A → string) (g : A → number) k (l : list A) :
  sum_numbers (g <$> filter (λ a, key a = k) l)
  = sum_numbers (snd <$> filter (λ e, e.1 = k) ((λ a, (key a, g a)) <$> l)).
Proof.
  induction l as [|a l IH]; [done|].
  rewrite fmap_cons, !filter_cons. cbn [fst].
  destruct (decide (key a = k)); [|exact IH].
  rewrite !fmap_cons. unfold sum_numbers in *. cbn [foldr snd].
  by rewrite IH.
Qed.

Lemma row_demand_placed db k :
  NoDup (o_id <$> orders db) →
  NoDup (p_id <$> products db) →
  (∀ oi, oi ∈ orderItems db → oi_productId oi ∈ p_id <$> products db) →
  row_demand k (placed_rows db) = placed_demand db k.
Proof.
  intros Ho Hp Hint. unfold row_demand, placed_demand.
  rewrite (sum_by_key pr_productId pr_totalQuantity), placed_rows_items by done.
  rewrite <- (sum_by_key oi_productId oi_quantity).
  by rewrite list_filter_filter.
Qed.

Lemma placed_rows_products db k :
  NoDup (o_id <$> orders db) →
  NoDup (p_id <$> products db) →
  (∀ oi, oi ∈ orderItems db → oi_productId oi ∈ p_id <$> products db) →
  (k ∈ pr_productId <$> placed_rows db)
  ↔ ∃ oi, oi ∈ orderItems db ∧ oi_productId oi = k
          ∧ parent_placed (orders db) oi.
Proof.
  intros Ho Hp Hint.
  assert (pr_productId <$> placed_rows db
          = fst <$> ((λ r, (pr_productId r, pr_totalQuantity r))
                       <$> placed_rows db)) as ->.
  { rewrite <- list_fmap_compose. by apply list_fmap_ext. }
  rewrite placed_rows_items by done.
  rewrite <- list_fmap_compose, list_elem_of_fmap. split.
  - intros (oi & -> & Hin). apply list_elem_of_filter in Hin as [? ?].
    by exists oi.
  - intros (oi & Hin & <- & Hpl). exists oi. split; [done|].
    by apply list_elem_of_filter.
Qed.

(** C2.  In a store where order ids and product ids are keys and every order
    item names an existing product, [getAggregatedProcurementList] has no two
    rows for the same product; a product has a row exactly when some order
    item of it belongs to an order with status [PLACED], so a product without
    such demand is absent; and the [totalQuantity] of a row is the sum of the
    quantities of all those items of its product. *)
Theorem procurement_list_groups_placed_demand db :
  NoDup (o_id <$> orders db) →
  NoDup (p_id <$> products db) →
  (∀ oi, oi ∈ orderItems db → oi_productId oi ∈ p_id <$> products db) →
  let list := getAggregatedProcurementList db in
  NoDup (pr_productId <$> list)
  ∧ (∀ pid, (pid ∈ pr_productId <$> list)
            ↔ ∃ oi, oi ∈ orderItems db ∧ oi_productId oi = pid
                    ∧ parent_placed (orders db) oi)
  ∧ (∀ row, row ∈ list →
       pr_totalQuantity row = placed_demand db (pr_productId row)).
Proof.
  intros Ho Hp Hint list. subst list. unfold getAggregatedProcurementList.
  cbv zeta.
  destruct (aggregated_rows (placed_rows db)) as (Hnd & Hkeys & Hsum).
  cbv zeta in Hnd, Hkeys, Hsum. split_and!.
  - exact Hnd.
  - intros pid. rewrite Hkeys. by apply placed_rows_products.
  - intros row Hrow. rewrite (Hsum row Hrow). by apply row_demand_placed.
Qed.

Lemma procurement_list_groups_placed_demand_witness :
  NoDup (o_id <$> orders procurement_db)
  ∧ NoDup (p_id <$> products procurement_db)
  ∧ (∀ oi, oi ∈ orderItems procurement_db →
           oi_productId oi ∈ p_id <$> products procurement_db)
  ∧ getAggregatedProcurementList procurement_db
    = [mkProcurementRow "A" "Onions" (Q2Qc 7) "kg"]
  ∧ placed_demand procurement_db "A" = Q2Qc 7
  ∧ NoDup (pr_productId <$> getAggregatedProcurementList procurement_db).
Proof.
  assert (NoDup (o_id <$> orders procurement_db)) as Ho.
  { apply (bool_decide_unpack _). by vm_compute. }
  assert (NoDup (p_id <$> products procurement_db)) as Hp.
  { apply (bool_decide_unpack _). by vm_compute. }
  assert (∀ oi, oi ∈ orderItems procurement_db →
                oi_productId oi ∈ p_id <$> products procurement_db) as Hint.
  { apply Forall_forall. apply (bool_decide_unpack _). by vm_compute. }
  split; [exact Ho|]. split; [exact Hp|]. split; [exact Hint|].
  split; [reflexivity|]. split; [reflexivity|].
  exact (proj1 (procurement_list_groups_placed_demand procurement_db Ho Hp Hint)).
Defined.

(** * Further properties of the handlers and the storage class *)

(** ** Rejected order requests *)

(** X1.  [POST /api/orders] checks the body before the user id.  A body with
    a quantity below 1 is answered with status 500 (the handler's catch-all),
    with or without a user id; a valid body without a user id is answered
    with 401.  Neither writes anything: no order row is left behind. *)
Theorem rejected_order_leaves_store parseFloat toString body userId db :
  let run := post_api_orders parseFloat toString body userId db in
  (Exists (λ item, ¬ (1 ≤ quantity item)%Qc) body →
     run = mkOrderRun (res_status 500 "Failed to create order") None db)
  ∧ (Forall (λ item, (1 ≤ quantity item)%Qc) body →
     truthy_string userId = false →
     run = mkOrderRun (res_status 401 "User ID required") None db).
Proof.
  intros run. subst run. unfold post_api_orders, createOrderSchema_parse. split.
  - intros Hbad.
    assert (forallb (λ item, bool_decide (1 ≤ quantity item)%Qc) body = false) as ->;
      [|done].
    apply not_true_is_false. intros Hall.
    rewrite forallb_forall in Hall.
    apply Exists_exists in Hbad as (item & Hin & Hq). apply Hq.
    apply list_elem_of_In, Hall in Hin. by apply bool_decide_eq_true in Hin.
  - intros Hq Hu.
    assert (forallb (λ item, bool_decide (1 ≤ quantity item)%Qc) body = true) as ->.
    { apply forallb_forall. intros item Hin. apply bool_decide_eq_true.
      rewrite Forall_forall in Hq. apply Hq. by apply list_elem_of_In. }
    by rewrite Hu.
Qed.

Lemma rejected_order_leaves_store_witness :
  Exists (λ item, ¬ (1 ≤ quantity item)%Qc) [mkOrderLine "A" (Q2Qc (1 # 2))]
  ∧ Forall (λ item, (1 ≤ quantity item)%Qc) sample_items
  ∧ truthy_string (Some "") = false
  ∧ run_db (post_api_orders sample_parseFloat sample_toString
              [mkOrderLine "A" (Q2Qc (1 # 2))] (Some "u1") sample_db) = sample_db
  ∧ run_response (post_api_orders sample_parseFloat sample_toString
                    sample_items (Some "") sample_db)
    = res_status 401 "User ID required".
Proof.
  assert (Exists (λ item, ¬ (1 ≤ quantity item)%Qc)
                 [mkOrderLine "A" (Q2Qc (1 # 2))]) as Hbad.
  { apply (bool_decide_unpack _). by vm_compute. }
  assert (Forall (λ item, (1 ≤ quantity item)%Qc) sample_items) as Hq.
  { repeat constructor; by vm_compute. }
  split; [exact Hbad|]. split; [exact Hq|]. split; [reflexivity|].
  split.
  - by rewrite (proj1 (rejected_order_leaves_store sample_parseFloat
                         sample_toString _ (Some "u1") sample_db) Hbad).
  - by rewrite (proj2 (rejected_order_leaves_store sample_parseFloat
                         sample_toString _ (Some "") sample_db) Hq eq_refl).
Defined.

(** ** Composition of status updates *)

Lemma patch_store id status db :
  (patch_api_orders_status id status db).2 = (updateOrderStatus id status db).2.
Proof.
  unfold patch_api_orders_status.
  destruct (updateOrderStatus id status db) as [[o|] db']; done.
Qed.

(** X2.  Status updates compose as overwrites: a second [PATCH] of the same
    order makes the first one invisible in the store, and updates of two
    different orders can be made in either order. *)
Theorem status_updates_compose id id' status status' db :
  (patch_api_orders_status id status'
     (patch_api_orders_status id status db).2).2
  = (patch_api_orders_status id status' db).2
  ∧ (id ≠ id' →
     (patch_api_orders_status id' status'
        (patch_api_orders_status id status db).2).2
     = (patch_api_orders_status id status
          (patch_api_orders_status id' status' db).2).2).
Proof.
  rewrite !patch_store. unfold updateOrderStatus, set_orders. simpl. split.
  - f_equal. rewrite <- list_fmap_compose. apply list_fmap_ext.
    intros ? o ?. simpl.
    repeat case_decide; simpl in *; done.
  - intros Hne. f_equal. rewrite <- !list_fmap_compose. apply list_fmap_ext.
    intros ? o ?. simpl.
    repeat case_decide; simpl in *; congruence.
Qed.

Lemma status_updates_compose_witness :
  "o1" ≠ "o2"
  ∧ o_status <$> orders
      (patch_api_orders_status "o2" DELIVERED
         (patch_api_orders_status "o1" PROCURING procurement_db).2).2
    = [PROCURING; DELIVERED; DELIVERED].
Proof.
  split; [done|].
  rewrite (proj2 (status_updates_compose "o1" "o2" PROCURING DELIVERED
                    procurement_db)) by done.
  reflexivity.
Defined.

(** ** Deliveries *)



Lemma delivered_after_update order (l : list Order) :
  NoDup (o_id <$> l) → order ∈ l →
  length (filter (λ o, o_status o = DELIVERED)
            ((λ o, if decide (o_id o = o_id order)
                   then with_status DELIVERED o else o) <$> l))
  = length (filter (λ o, o_status o = DELIVERED) l)
    + (if decide (o_status order = DELIVERED) then 0 else 1).
Proof.
  induction l as [|o l IH]; intros Hnd Hin; [by apply elem_of_nil in Hin|].
  rewrite fmap_cons in Hnd. apply NoDup_cons in Hnd as [Hnot Hnd].
  rewrite fmap_cons, !filter_cons.
  apply elem_of_cons in Hin as [<-|Hin].
  - rewrite (update_absent_id (o_id order) DELIVERED l Hnot).
    rewrite (decide_True (P := o_id order = o_id order)) by done. simpl.
    destruct (decide (o_status order = DELIVERED)); simpl; lia.
  - assert (o_id o ≠ o_id order) as Hne.
    { intros Heq. apply Hnot. rewrite Heq. apply list_elem_of_fmap. by exists order. }
    rewrite (decide_False (P := o_id o = o_id order)) by done.
    destruct (decide (o_status o = DELIVERED)); simpl; rewrite IH by done; lia.
Qed.

(** X4.  Where order ids are keys, marking an order delivered raises the
    partner's [totalDeliveries] by one and [totalEarnings] by 40 when the
    order was not yet [DELIVERED], and changes neither when it already was:
    a repeated mark is not paid twice. *)
Theorem mark_delivered_earnings order now db :
  NoDup (o_id <$> orders db) →
  order ∈ orders db →
  let before := getPartnerEarnings None db in
  let after := getPartnerEarnings None
    (post_api_partner_mark_delivered
       (mkDeliveryBody (Some (o_id order))) now db).2 in
  totalDeliveries after
  = totalDeliveries before + (if decide (o_status order = DELIVERED) then 0 else 1)
  ∧ totalEarnings after
    = totalEarnings before + (if decide (o_status order = DELIVERED) then 0 else 40).
Proof.
  intros Hnd Hin before after. subst before after.
  unfold getPartnerEarnings, post_api_partner_mark_delivered. simpl.
  rewrite delivered_after_update by done.
  destruct (decide (o_status order = DELIVERED)); lia.
Qed.

Lemma mark_delivered_earnings_witness :
  NoDup (o_id <$> orders procurement_db)
  ∧ mkOrder "o1" (Some "u1") PLACED "0" ∈ orders procurement_db
  ∧ getPartnerEarnings None procurement_db = mkEarnings 1 40
  ∧ totalEarnings
      (getPartnerEarnings None
         (post_api_partner_mark_delivered (mkDeliveryBody (Some "o1")) 5
            procurement_db).2) = 80.
Proof.
  assert (NoDup (o_id <$> orders procurement_db)) as Hnd.
  { apply (bool_decide_unpack _). by vm_compute. }
  assert (mkOrder "o1" (Some "u1") PLACED "0" ∈ orders procurement_db) as Hin.
  { apply list_elem_of_here. }
  split; [exact Hnd|]. split; [exact Hin|]. split; [reflexivity|].
  exact (proj2 (mark_delivered_earnings _ 5 procurement_db Hnd Hin)).
Defined.



(** ** The procurement list *)

Lemma innerJoin_elem {A B} (on : A → B → bool) (l : list A) (r : list B) x :
  x ∈ innerJoin on l r → x.1 ∈ l ∧ x.2 ∈ r ∧ on x.1 x.2 = true.
Proof.
  unfold innerJoin. rewrite list_elem_of_In, in_flat_map.
  intros (a & Ha & Hx). apply in_flat_map in Hx as (b & Hb & Hx).
  apply list_elem_of_In in Ha, Hb.
  destruct (on a b) eqn:Hon; [|by destruct Hx].
  destruct Hx as [<-|[]]. done.
Qed.

Lemma placed_rows_elem db row :
  row ∈ placed_rows db →
  ∃ oi o p, oi ∈ orderItems db ∧ o ∈ orders db ∧ p ∈ products db
            ∧ o_id o = oi_orderId oi ∧ p_id p = oi_productId oi
            ∧ o_status o = PLACED
            ∧ row = mkProcurementRow (oi_productId oi) (p_name p)
                                     (oi_quantity oi) (p_unit p).
Proof.
  unfold placed_rows. rewrite list_elem_of_fmap.
  intros ([[oi o] p] & -> & Hin). apply list_elem_of_filter in Hin as [Hst Hin].
  apply innerJoin_elem in Hin as (Hin & Hp & Honp).
  apply innerJoin_elem in Hin as (Hoi & Ho & Hono). simpl in *.
  apply bool_decide_eq_true in Honp, Hono.
  by exists oi, o, p.
Qed.

(** X6.  When no order has status [PLACED] the procurement list is empty,
    whatever the order items and products are. *)
Theorem procurement_list_empty_without_placed db :
  Forall (λ o, o_status o ≠ PLACED) (orders db) →
  getAggregatedProcurementList db = [].
Proof.
  intros Hnone. unfold getAggregatedProcurementList.
  assert (placed_rows db = []) as ->; [|done].
  destruct (placed_rows db) as [|row rows] eqn:E; [done|].
  assert (row ∈ placed_rows db) as Hin by (rewrite E; apply list_elem_of_here).
  apply placed_rows_elem in Hin as (oi & o & p & _ & Ho & _ & _ & _ & Hst & _).
  rewrite Forall_forall in Hnone. by destruct (Hnone o Ho).
Qed.

Lemma procurement_list_empty_without_placed_witness :
  let db := set_orders (fmap (with_status ON_THE_WAY)) procurement_db in
  Forall (λ o, o_status o ≠ PLACED) (orders db)
  ∧ getAggregatedProcurementList db = []
  ∧ orderItems db = orderItems procurement_db.
Proof.
  intros db.
  assert (Forall (λ o, o_status o ≠ PLACED) (orders db)) as Hnone.
  { apply (bool_decide_unpack _). by vm_compute. }
  split; [exact Hnone|]. split; [|reflexivity].
  exact (procurement_list_empty_without_placed db Hnone).
Defined.

Lemma Map_get_elem {V} k (v : V) (m : list (string * V)) :
  Map_get k m = Some v → (k, v) ∈ m.
Proof.
  unfold Map_get. intros Hget.
  destruct (filter (λ e, e.1 = k) m) as [|[k' v'] l] eqn:E; [done|].
  simpl in Hget. injection Hget as ->.
  assert ((k', v) ∈ filter (λ e, e.1 = k) m) as Hin
    by (rewrite E; apply list_elem_of_here).
  apply list_elem_of_filter in Hin as [Hk Hin]. simpl in Hk. by subst k'.
Qed.

Lemma aggregate_entries (P : string → string → string → Prop) rows acc :
  (∀ k v, (k, v) ∈ acc → P k (ag_productName v) (ag_unit v)) →
  (∀ r, r ∈ rows → P (pr_productId r) (pr_productName r) (pr_unit r)) →
  ∀ k v, (k, v) ∈ fold_left aggregate_step rows acc →
         P k (ag_productName v) (ag_unit v).
Proof.
  revert acc. induction rows as [|item rows IH]; intros acc Hacc Hrows; [done|].
  cbn [fold_left]. apply IH.
  - intros k v. unfold aggregate_step, Map_set.
    destruct (Map_get (pr_productId item) acc) as [existing|] eqn:E.
    + apply Map_get_elem in E.
      destruct (Map_has _ acc).
      * rewrite list_elem_of_fmap. intros ([k0 v0] & Heq & Hin).
        simpl in Heq. destruct (decide (k0 = pr_productId item)).
        -- injection Heq as -> ->. simpl. by apply (Hacc _ _ E).
        -- injection Heq as -> ->. by apply Hacc.
      * rewrite elem_of_app, list_elem_of_singleton.
        intros [Hin|Heq]; [by apply Hacc|].
        injection Heq as -> ->. simpl. by apply (Hacc _ _ E).
    + destruct (Map_has _ acc).
      * rewrite list_elem_of_fmap. intros ([k0 v0] & Heq & Hin).
        simpl in Heq. destruct (decide (k0 = pr_productId item)).
        -- injection Heq as -> ->. simpl. apply Hrows, list_elem_of_here.
        -- injection Heq as -> ->. by apply Hacc.
      * rewrite elem_of_app, list_elem_of_singleton.
        intros [Hin|Heq]; [by apply Hacc|].
        injection Heq as -> ->. simpl. apply Hrows, list_elem_of_here.
  - intros r Hr. apply Hrows. by right.
Qed.

(** X7.  Every row of the procurement list describes a product of the
    catalogue: some product row carries its [productId], and the
    [productName] and [unit] of the row are that product's. *)
Theorem procurement_rows_describe_products db row :
  row ∈ getAggregatedProcurementList db →
  ∃ p, p ∈ products db ∧ p_id p = pr_productId row
       ∧ p_name p = pr_productName row ∧ p_unit p = pr_unit row.
Proof.
  unfold getAggregatedProcurementList. rewrite list_elem_of_fmap.
  intros ([k v] & -> & Hin). simpl.
  apply (aggregate_entries
           (λ k name unit, ∃ p, p ∈ products db ∧ p_id p = k
                                ∧ p_name p = name ∧ p_unit p = unit)
           (placed_rows db) []); [| |exact Hin].
  - intros ? ? H. by apply elem_of_nil in H.
  - intros r Hr.
    apply placed_rows_elem in Hr as (oi & o & p & _ & _ & Hp & _ & Hid & _ & ->).
    by exists p.
Qed.

Lemma procurement_rows_describe_products_witness :
  mkProcurementRow "A" "Onions" (Q2Qc 7) "kg"
    ∈ getAggregatedProcurementList procurement_db
  ∧ ∃ p, p ∈ products procurement_db ∧ p_id p = "A"
         ∧ p_name p = "Onions" ∧ p_unit p = "kg".
Proof.
  assert (mkProcurementRow "A" "Onions" (Q2Qc 7) "kg"
            ∈ getAggregatedProcurementList procurement_db) as Hin.
  { apply list_elem_of_here. }
  split; [exact Hin|].
  exact (procurement_rows_describe_products procurement_db _ Hin).
Defined.

(** ** Prices *)



Lemma snapshot_price_nonneg parseFloat (snapshot : list ProcurementPrice) pid :
  Forall (λ r, (0 ≤ parseFloat (pp_price r))%Qc) snapshot →
  (0 ≤ snapshot_price parseFloat snapshot pid)%Qc.
Proof.
  intros Hpos. unfold snapshot_price.
  destruct (last (filter _ snapshot)) as [r|] eqn:E; [|done].
  apply last_Some_elem_of, list_elem_of_filter in E as [_ Hin].
  rewrite Forall_forall in Hpos. by apply Hpos.
Qed.

(** X9.  When no price row is negative, the total computed for an accepted
    order is never below the convenience fee of 40. *)
Theorem order_total_at_least_fee parseFloat toString body userId db :
  Forall (λ r, (0 ≤ parseFloat (pp_price r))%Qc) (getLatestProcurementPrices db) →
  Forall (λ item, (1 ≤ quantity item)%Qc) body →
  truthy_string userId = true →
  ∃ total,
    run_total (post_api_orders parseFloat toString body userId db) = Some total
    ∧ (Q2Qc 40 ≤ total)%Qc.
Proof.
  intros Hpos Hq Hu.
  destruct (post_api_orders_effect parseFloat toString body userId db Hq Hu)
    as (Ht & _).
  eexists. split; [exact Ht|]. unfold order_total.
  rewrite <- (Qcplus_0_r (Q2Qc 40)) at 1. apply Qcplus_le_mono_l.
  clear Ht. induction Hq as [|item body Hitem _ IH]; [done|].
  rewrite fmap_cons. unfold sum_numbers. cbn [foldr].
  apply Qcplus_nonneg_nonneg; [|exact IH].
  rewrite <- (Qcmult_0_r (snapshot_price parseFloat
                            (getLatestProcurementPrices db) (productId item))).
  apply Qcmult_le_mono_nonneg_l; [by apply snapshot_price_nonneg|].
  by transitivity 1%Qc.
Qed.

Lemma order_total_at_least_fee_witness :
  Forall (λ r, (0 ≤ sample_parseFloat (pp_price r))%Qc)
         (getLatestProcurementPrices sample_db)
  ∧ Forall (λ item, (1 ≤ quantity item)%Qc) sample_items
  ∧ truthy_string (Some "u1") = true
  ∧ ∃ total,
      run_total (post_api_orders sample_parseFloat sample_toString sample_items
                   (Some "u1") sample_db) = Some total
      ∧ (Q2Qc 40 ≤ total)%Qc.
Proof.
  assert (Forall (λ r, (0 ≤ sample_parseFloat (pp_price r))%Qc)
                 (getLatestProcurementPrices sample_db)) as Hpos.
  { repeat constructor; by vm_compute. }
  assert (Forall (λ item, (1 ≤ quantity item)%Qc) sample_items) as Hq.
  { repeat constructor; by vm_compute. }
  split; [exact Hpos|]. split; [exact Hq|]. split; [reflexivity|].
  exact (order_total_at_least_fee sample_parseFloat sample_toString
           sample_items (Some "u1") sample_db Hpos Hq eq_refl).
Defined.

(** ** Reading orders back *)



(** X11.  [getOrder] answers [undefined] exactly for the ids that no order
    carries; otherwise the order it returns is a stored order with that id
    and every item attached to it belongs to that order. *)
Theorem getOrder_lookup id db :
  (getOrder id db = None ↔ (id ∉ o_id <$> orders db))
  ∧ ∀ found, getOrder id db = Some found →
      owi_order found ∈ orders db
      ∧ o_id (owi_order found) = id
      ∧ Forall (λ x, oi_orderId (oip_item x) = id) (owi_items found).
Proof.
  unfold getOrder. split.
  - destruct (head (filter (λ o, o_id o = id) (orders db))) as [o|] eqn:E.
    + split; [done|]. intros Hnot.
      apply head_Some_elem_of, list_elem_of_filter in E as [Hid Hin].
      destruct Hnot. rewrite <- Hid. apply list_elem_of_fmap. by exists o.
    + split; [|done]. intros _ Hin.
      destruct (head_filter_key_present o_id id (orders db) Hin) as (o & Ho & _).
      congruence.
  - intros found.
    destruct (head (filter (λ o, o_id o = id) (orders db))) as [o|] eqn:E; [|done].
    intros [= <-]. simpl.
    apply head_Some_elem_of, list_elem_of_filter in E as [Hid Hin].
    split_and!; [done | done |].
    apply Forall_forall. intros x. unfold getOrderItems.
    rewrite list_elem_of_fmap. intros ([oi p] & -> & Hx).
    by apply list_elem_of_filter in Hx as [? _].
Qed.

Lemma getOrder_lookup_witness :
  ("o9" ∉ o_id <$> orders procurement_db)
  ∧ getOrder "o9" procurement_db = None
  ∧ (owi_order <$> getOrder "o2" procurement_db)
    = Some (mkOrder "o2" (Some "u1") PLACED "0").
Proof.
  assert ("o9" ∉ o_id <$> orders procurement_db) as Hnot.
  { apply (bool_decide_unpack _). by vm_compute. }
  split; [exact Hnot|]. split; [|reflexivity].
  by apply (proj1 (getOrder_lookup "o9" procurement_db)).
Defined.

Lemma expected_items_order_id parseFloat toString snapshot orderId body rows :
  item_columns <$> rows
  = expected_items parseFloat toString snapshot orderId body →
  Forall (λ oi, oi_orderId oi = orderId) rows
  ∧ (λ oi, (oi_productId oi, oi_quantity oi)) <$> rows
    = (λ item, (productId item, quantity item)) <$> body.
Proof.
  unfold expected_items. revert body.
  induction rows as [|oi rows IH]; intros [|item body] Heq; try done.
  rewrite !fmap_cons in Heq. injection Heq as Hid Hpid Hqty _ Htl.
  destruct (IH body Htl) as [Hall Hpairs].
  split; [by constructor|].
  rewrite !fmap_cons, Hpairs. by rewrite Hpid, Hqty.
Qed.


Lemma filter_agree {A} (P Q : A → Prop) `{!∀ x, Decision (P x)}
    `{!∀ x, Decision (Q x)} (l : list A) :
  Forall (λ x, P x ↔ Q x) l → filter P l = filter Q l.
Proof.
  induction 1 as [|x l Hx _ IH]; [done|].
  rewrite !filter_cons, IH.
  destruct (decide (P x)), (decide (Q x)); tauto.
Qed.







(** ** The product catalogue *)

Lemma insert_products_frame values db :
  let db' := insert_products values db in
  users db' = users db ∧ orders db' = orders db
  ∧ orderItems db' = orderItems db
  ∧ procurementPrices db' = procurementPrices db
  ∧ deliveries db' = deliveries db.
Proof.
  unfold insert_products. revert db.
  induction values as [|v values IH]; intros db; [done|].
  cbn [fold_left]. cbv zeta in *.
  destruct (IH (set_products
                  (λ t, t ++ [mkProduct (new_id (p_id <$> t)) v.1 v.2]) db))
    as (H1 & H2 & H3 & H4 & H5).
  by rewrite H1, H2, H3, H4, H5.
Qed.

Lemma insert_products_rows values db :
  let db' := insert_products values db in
  (λ p, (p_name p, p_unit p)) <$> products db'
  = ((λ p, (p_name p, p_unit p)) <$> products db) ++ values
  ∧ (NoDup (p_id <$> products db) → NoDup (p_id <$> products db')).
Proof.
  unfold insert_products. revert db.
  induction values as [|v values IH]; intros db.
  - simpl. by rewrite app_nil_r.
  - cbn [fold_left]. cbv zeta in *.
    destruct (IH (set_products
                    (λ t, t ++ [mkProduct (new_id (p_id <$> t)) v.1 v.2]) db))
      as (Hrows & Hnd).
    split.
    + rewrite Hrows. simpl. rewrite fmap_app. simpl.
      rewrite <- app_assoc. by destruct v.
    + intros Hnd0. apply Hnd. simpl. rewrite fmap_app. simpl.
      apply NoDup_app. split_and!; [done | | apply NoDup_singleton].
      intros k Hk Hk'. apply list_elem_of_singleton in Hk'. subst k.
      by apply new_id_fresh in Hk.
Qed.

(** X14.  [getAllProducts] seeds the catalogue once.  A storage object that
    has not initialised yet and finds the product table empty inserts the
    four default products, in order and under distinct ids; one that finds
    products leaves the store alone; one whose flag is already set never
    inserts, even into an empty table.  In every case the flag is set
    afterwards, only the product table can have changed, and a second call
    returns the same products and changes nothing. *)
Theorem default_products_seeded_once s :
  let r := getAllProducts s in
  r.1 = products (store r.2)
  ∧ initialized r.2 = true
  ∧ (initialized s = false → products (store s) = [] →
       (λ p, (p_name p, p_unit p)) <$> r.1 = defaultProducts
       ∧ NoDup (p_id <$> r.1))
  ∧ (products (store s) ≠ [] → store r.2 = store s)
  ∧ (initialized s = true → r = (products (store s), s))
  ∧ orders (store r.2) = orders (store s)
  ∧ orderItems (store r.2) = orderItems (store s)
  ∧ getAllProducts r.2 = r.
Proof.
  intros r. subst r. unfold getAllProducts, initializeDefaultData. cbv zeta.
  destruct s as [ini db]. simpl.
  destruct ini; simpl; [by split_and!|].
  destruct (products db) as [|p ps] eqn:E; simpl.
  - pose proof (insert_products_rows defaultProducts db) as Hrows.
    pose proof (insert_products_frame defaultProducts db) as Hframe.
    cbv zeta in Hrows, Hframe. rewrite E in Hrows.
    destruct Hrows as (Hrows & Hnd).
    destruct Hframe as (_ & Ho & Hoi & _ & _).
    split_and!; try done.
    intros _ _. split; [exact Hrows | apply Hnd, NoDup_nil_2].
  - by split_and!.
Qed.

Lemma default_products_seeded_once_witness :
  let s := mkStorage false (set_products (λ _, []) sample_db) in
  initialized s = false
  ∧ products (store s) = []
  ∧ p_name <$> (getAllProducts s).1
    = ["Onions"; "Potatoes"; "Cooking Oil"; "Tomatoes"]
  ∧ NoDup (p_id <$> (getAllProducts s).1)
  ∧ (getAllProducts (getAllProducts s).2).1 = (getAllProducts s).1
  ∧ (getAllProducts (mkStorage true (store s))).1 = [].
Proof.
  intros s. split; [reflexivity|]. split; [reflexivity|].
  destruct (default_products_seeded_once s)
    as (_ & _ & Hseed & _ & _ & _ & _ & Hagain).
  destruct (Hseed eq_refl eq_refl) as [Hrows Hnd].
  split; [reflexivity|]. split; [exact Hnd|]. split; [by rewrite Hagain|].
  reflexivity.
Defined.

(** ** From an order to the procurement list *)

Lemma sum_numbers_app (l1 l2 : list number) :
  sum_numbers (l1 ++ l2) = (sum_numbers l1 + sum_numbers l2)%Qc.
Proof.
  unfold sum_numbers. induction l1 as [|x l1 IH]; simpl.
  - by rewrite Qcplus_0_l.
  - by rewrite IH, Qcplus_assoc.
Qed.

Lemma placed_demand_after_order db db' order rows body k :
  orders db' = orders db ++ [order] →
  orderItems db' = orderItems db ++ rows →
  o_status order = PLACED →
  (o_id order ∉ o_id <$> orders db) →
  (∀ oi, oi ∈ orderItems db → oi_orderId oi ∈ o_id <$> orders db) →
  Forall (λ oi, oi_orderId oi = o_id order) rows →
  (λ oi, (oi_productId oi, oi_quantity oi)) <$> rows
  = (λ item, (productId item, quantity item)) <$> body →
  placed_demand db' k
  = (placed_demand db k
     + sum_numbers (quantity <$> filter (λ item, productId item = k) body))%Qc.
Proof.
  intros Ho Hrows Hst Hfresh Hint Hids Hpairs. unfold placed_demand.
  rewrite Ho, Hrows, filter_app, fmap_app, sum_numbers_app. f_equal.
  - do 2 f_equal. apply filter_agree, Forall_forall. intros oi Hin.
    unfold parent_placed. rewrite Exists_app, Exists_cons, Exists_nil.
    split; [|tauto]. intros [Hk [?|[[Hid _]|[]]]]; [done|].
    apply Hint in Hin. rewrite <- Hid in Hin. by destruct Hfresh.
  - rewrite (sum_by_key productId quantity), <- Hpairs.
    rewrite <- (sum_by_key oi_productId oi_quantity). do 2 f_equal.
    apply filter_agree. eapply Forall_impl; [exact Hids|].
    intros oi Hid. simpl. split; [tauto|]. intros Hk. split; [done|].
    unfold parent_placed. rewrite Exists_app, Exists_cons. right. by left.
Qed.

(** X15.  A placed order reaches the procurement list.  In a store whose
    order and product ids are keys and whose order items reference stored
    orders and products, after a successful [POST /api/orders] for existing
    products every ordered product has a row in the procurement list, and
    the [totalQuantity] of each row is the demand there was before plus the
    quantities of the new order's lines for that product. *)
Theorem order_adds_procurement_demand parseFloat toString body userId db :
  Forall (λ item, (1 ≤ quantity item)%Qc) body →
  truthy_string userId = true →
  NoDup (o_id <$> orders db) →
  NoDup (p_id <$> products db) →
  (∀ oi, oi ∈ orderItems db →
         (oi_orderId oi ∈ o_id <$> orders db)
         ∧ (oi_productId oi ∈ p_id <$> products db)) →
  Forall (λ item, productId item ∈ p_id <$> products db) body →
  let list := getAggregatedProcurementList
                (run_db (post_api_orders parseFloat toString body userId db)) in
  Forall (λ item, productId item ∈ pr_productId <$> list) body
  ∧ ∀ row, row ∈ list →
      pr_totalQuantity row
      = (placed_demand db (pr_productId row)
         + sum_numbers (quantity <$>
                          filter (λ item, productId item = pr_productId row) body))%Qc.
Proof.
  intros Hq Hu Hon Hpn Hint Hbody list. subst list.
  destruct (post_api_orders_effect parseFloat toString body userId db Hq Hu)
    as (_ & Ho & (rows & Hrows & Hcols) & _ & Hprod & _ & _ & _).
  set (db' := run_db (post_api_orders parseFloat toString body userId db)) in *.
  set (order := mkOrder (new_id (o_id <$> orders db)) (Some (default "" userId))
                        PLACED "0") in *.
  apply expected_items_order_id in Hcols as [Hids Hpairs].
  assert (o_id order ∉ o_id <$> orders db) as Hfresh by apply new_id_fresh.
  assert (NoDup (o_id <$> orders db')) as Hon'.
  { rewrite Ho, fmap_app. apply NoDup_app. split_and!; [done | | apply NoDup_singleton].
    intros k Hk Hk'. apply list_elem_of_singleton in Hk'. by subst k. }
  assert (NoDup (p_id <$> products db')) as Hpn' by (by rewrite Hprod).
  assert (oi_productId <$> rows = productId <$> body) as Hpids.
  { apply (f_equal (fmap fst)) in Hpairs.
    by rewrite <- !list_fmap_compose in Hpairs. }
  assert (∀ oi, oi ∈ orderItems db' → oi_productId oi ∈ p_id <$> products db')
    as Hint'.
  { intros oi. rewrite Hrows, Hprod, elem_of_app. intros [Hin|Hin].
    - by apply Hint.
    - assert (oi_productId oi ∈ productId <$> body) as Hb.
      { rewrite <- Hpids. apply list_elem_of_fmap. by exists oi. }
      apply list_elem_of_fmap in Hb as (item & -> & Hitem).
      rewrite Forall_forall in Hbody. by apply Hbody. }
  unfold getAggregatedProcurementList. cbv zeta.
  destruct (aggregated_rows (placed_rows db')) as (_ & Hkeys & Hsum).
  cbv zeta in Hkeys, Hsum. split.
  - apply Forall_forall. intros item Hitem. apply Hkeys.
    apply placed_rows_products; [done..|].
    assert (productId item ∈ oi_productId <$> rows) as Hr.
    { rewrite Hpids. apply list_elem_of_fmap. by exists item. }
    apply list_elem_of_fmap in Hr as (oi & Hpid & Hoi).
    exists oi. split_and!; [rewrite Hrows; apply elem_of_app; by right | done |].
    unfold parent_placed. rewrite Ho, Exists_app, Exists_cons. right. left.
    rewrite Forall_forall in Hids. by rewrite (Hids oi Hoi).
  - intros row Hrow. rewrite (Hsum row Hrow).
    rewrite row_demand_placed by done.
    apply (placed_demand_after_order db db' order rows body); try done.
    intros oi Hin. by apply Hint.
Qed.

Lemma order_adds_procurement_demand_witness :
  let body := [mkOrderLine "B" (Q2Qc 3); mkOrderLine "A" (Q2Qc 1)] in
  Forall (λ item, (1 ≤ quantity item)%Qc) body
  ∧ truthy_string (Some "u1") = true
  ∧ NoDup (o_id <$> orders procurement_db)
  ∧ NoDup (p_id <$> products procurement_db)
  ∧ (∀ oi, oi ∈ orderItems procurement_db →
           (oi_orderId oi ∈ o_id <$> orders procurement_db)
           ∧ (oi_productId oi ∈ p_id <$> products procurement_db))
  ∧ Forall (λ item, productId item ∈ p_id <$> products procurement_db) body
  ∧ (λ r, (pr_productId r, pr_totalQuantity r))
      <$> getAggregatedProcurementList
            (run_db (post_api_orders sample_parseFloat sample_toString body
                       (Some "u1") procurement_db))
    = [("A", Q2Qc 8); ("B", Q2Qc 3)]
  ∧ Forall (λ item, productId item ∈
              pr_productId <$> getAggregatedProcurementList
                (run_db (post_api_orders sample_parseFloat sample_toString body
                           (Some "u1") procurement_db))) body.
Proof.
  intros body.
  assert (Forall (λ item, (1 ≤ quantity item)%Qc) body) as Hq.
  { repeat constructor; by vm_compute. }
  assert (NoDup (o_id <$> orders procurement_db)) as Hon.
  { apply (bool_decide_unpack _). by vm_compute. }
  assert (NoDup (p_id <$> products procurement_db)) as Hpn.
  { apply (bool_decide_unpack _). by vm_compute. }
  assert (∀ oi, oi ∈ orderItems procurement_db →
                (oi_orderId oi ∈ o_id <$> orders procurement_db)
                ∧ (oi_productId oi ∈ p_id <$> products procurement_db)) as Hint.
  { apply Forall_forall. apply (bool_decide_unpack _). by vm_compute. }
  assert (Forall (λ item, productId item ∈ p_id <$> products procurement_db) body)
    as Hbody.
  { apply (bool_decide_unpack _). by vm_compute. }
  split; [exact Hq|]. split; [reflexivity|]. split; [exact Hon|].
  split; [exact Hpn|]. split; [exact Hint|]. split; [exact Hbody|].
  split; [reflexivity|].
  exact (proj1 (order_adds_procurement_demand sample_parseFloat sample_toString
                  body (Some "u1") procurement_db Hq eq_refl Hon Hpn Hint Hbody)).
Defined.

(** ** The order form *)

Lemma Math_max_0_nonneg (x : number) : (0 ≤ Math_max 0 x)%Qc.
Proof. unfold Math_max. case_bool_decide; done. Qed.

(** X16.  The quantities of the order form never go below zero: whatever
    buttons are pressed, with whatever step, every stored quantity stays
    non-negative once the stored quantities are. *)
Theorem quantities_never_negative clicks (quantities : gmap string number) :
  map_Forall (λ _ v, (0 ≤ v)%Qc) quantities →
  map_Forall (λ _ v, (0 ≤ v)%Qc) (clicks_from quantities clicks).
Proof.
  unfold clicks_from. revert quantities.
  induction clicks as [|c clicks IH]; intros quantities Hq; [done|].
  cbn [fold_left]. apply IH. unfold updateQuantity.
  apply map_Forall_insert_2; [apply Math_max_0_nonneg | done].
Qed.

Lemma quantities_never_negative_witness :
  map_Forall (λ _ v, (0 ≤ v)%Qc) (∅ : gmap string number)
  ∧ clicks_from ∅ [("A", (-1)%Qc); ("A", (-1)%Qc); ("A", 1%Qc)] !! "A"
    = Some 1%Qc
  ∧ map_Forall (λ _ v, (0 ≤ v)%Qc)
      (clicks_from ∅ [("A", (-1)%Qc); ("A", (-1)%Qc); ("A", 1%Qc)]).
Proof.
  split; [apply map_Forall_empty|]. split; [by vm_compute|].
  apply (quantities_never_negative _ ∅), map_Forall_empty.
Defined.

Lemma Q2Qc_inject_Z_plus (a b : Z) :
  (Q2Qc (inject_Z a) + Q2Qc (inject_Z b))%Qc = Q2Qc (inject_Z (a + b)).
Proof.
  apply Qc_is_canon. unfold Qcplus, Q2Qc. simpl.
  rewrite !Qred_correct. by rewrite inject_Z_plus.
Qed.

Lemma Q2Qc_inject_Z_le (a b : Z) :
  (Q2Qc (inject_Z a) ≤ Q2Qc (inject_Z b))%Qc ↔ (a ≤ b)%Z.
Proof.
  unfold Qcle, Q2Qc. simpl. rewrite !Qred_correct. by rewrite Zle_Qle.
Qed.

Lemma Q2Qc_inject_Z_lt (a b : Z) :
  (Q2Qc (inject_Z a) < Q2Qc (inject_Z b))%Qc ↔ (a < b)%Z.
Proof.
  unfold Qclt, Q2Qc. simpl. rewrite !Qred_correct. by rewrite Zlt_Qlt.
Qed.

(** Pressing plus or minus keeps every quantity a whole number, zero or more. *)
Lemma quantities_whole clicks :
  Forall (λ c : string * number, c.2 = 1%Qc ∨ c.2 = (-1)%Qc) clicks →
  map_Forall (λ _ v, ∃ n : Z, (0 ≤ n)%Z ∧ v = Q2Qc (inject_Z n))
             (clicks_from ∅ clicks).
Proof.
  unfold clicks_from.
  assert (∀ q : gmap string number,
            map_Forall (λ _ v, ∃ n : Z, (0 ≤ n)%Z ∧ v = Q2Qc (inject_Z n)) q →
            Forall (λ c : string * number, c.2 = 1%Qc ∨ c.2 = (-1)%Qc) clicks →
            map_Forall (λ _ v, ∃ n : Z, (0 ≤ n)%Z ∧ v = Q2Qc (inject_Z n))
                       (fold_left (λ q c, updateQuantity c.1 c.2 q) clicks q))
    as Hgen.
  { induction clicks as [|c clicks IH]; intros q Hq Hc; [done|].
    apply Forall_cons in Hc as [Hstep Hc]. cbn [fold_left].
    apply IH; [|done]. unfold updateQuantity.
    apply map_Forall_insert_2; [|done].
    assert (∃ n : Z, (0 ≤ n)%Z ∧ or_zero (q !! c.1) = Q2Qc (inject_Z n))
      as (n & Hn & ->).
    { destruct (q !! c.1) as [v|] eqn:E.
      - rewrite or_zero_Some. by apply (Hq _ _ E).
      - exists 0%Z. by split. }
    assert (∃ d : Z, (d = 1 ∨ d = -1)%Z ∧ c.2 = Q2Qc (inject_Z d))
      as (d & Hd & ->).
    { destruct Hstep as [->| ->].
      - exists 1%Z. split; [by left | done].
      - exists (-1)%Z. split; [by right | done]. }
    rewrite Q2Qc_inject_Z_plus. unfold Math_max.
    change 0%Qc with (Q2Qc (inject_Z 0)).
    case_bool_decide as Hle.
    - apply (proj1 (Q2Qc_inject_Z_le 0 (n + d))) in Hle.
      exists (n + d)%Z. by split.
    - exists 0%Z. by split. }
  intros Hc. apply Hgen; [apply map_Forall_empty | done].
Qed.

Lemma NoDup_fst_filter {A B} (P : A * B → Prop) `{!∀ x, Decision (P x)}
    (l : list (A * B)) :
  NoDup (fst <$> l) → NoDup (fst <$> filter P l).
Proof.
  induction l as [|x l IH]; [done|].
  rewrite fmap_cons, NoDup_cons. intros [Hnot Hnd].
  rewrite filter_cons. destruct (decide (P x)); [|by apply IH].
  rewrite fmap_cons. apply NoDup_cons. split; [|by apply IH].
  intros Hin. apply Hnot. apply list_elem_of_fmap in Hin as (y & -> & Hy).
  apply list_elem_of_filter in Hy as [_ Hy].
  apply list_elem_of_fmap. by exists y.
Qed.

Lemma form_items_valid clicks items :
  Forall (λ c : string * number, c.2 = 1%Qc ∨ c.2 = (-1)%Qc) clicks →
  handlePlaceOrder (clicks_from ∅ clicks) = Some items →
  items ≠ []
  ∧ Forall (λ item, (1 ≤ quantity item)%Qc) items
  ∧ NoDup (productId <$> items).
Proof.
  intros Hc. unfold handlePlaceOrder. cbv zeta.
  set (m := clicks_from ∅ clicks).
  set (l := (λ e : string * number, mkOrderLine e.1 e.2)
              <$> filter (λ e : string * number, (0 < e.2)%Qc) (map_to_list m)).
  case_bool_decide as Hlen; [done|]. intros [= <-]. split_and!.
  - intros Hnil. by rewrite Hnil in Hlen.
  - apply Forall_forall. intros item. unfold l.
    rewrite list_elem_of_fmap. intros ([k v] & -> & Hin).
    apply list_elem_of_filter in Hin as [Hpos Hin]. simpl in *.
    apply elem_of_map_to_list in Hin.
    destruct (quantities_whole clicks Hc k v Hin) as (n & Hn & ->).
    change 0%Qc with (Q2Qc (inject_Z 0)) in Hpos.
    change 1%Qc with (Q2Qc (inject_Z 1)).
    apply (proj1 (Q2Qc_inject_Z_lt 0 n)) in Hpos.
    apply (proj2 (Q2Qc_inject_Z_le 1 n)). lia.
  - unfold l. rewrite <- list_fmap_compose.
    apply (NoDup_fst_filter (λ e : string * number, (0 < e.2)%Qc)).
    apply NoDup_fst_map_to_list.
Qed.

(** X17.  Whatever the vendor clicks on the plus and minus buttons of a fresh
    form, what [handlePlaceOrder] submits is a non-empty list of lines with
    distinct products and quantities of at least 1, which the order schema
    of the server accepts; when no quantity is above zero nothing is
    submitted, so the form never sends the empty order that the server would
    accept. *)
Theorem form_order_passes_validation clicks :
  Forall (λ c : string * number, c.2 = 1%Qc ∨ c.2 = (-1)%Qc) clicks →
  match handlePlaceOrder (clicks_from ∅ clicks) with
  | Some items =>
      items ≠ []
      ∧ createOrderSchema_parse items = Some items
      ∧ NoDup (productId <$> items)
  | None =>
      ∀ pid, or_zero (clicks_from ∅ clicks !! pid) = 0%Qc
  end.
Proof.
  intros Hc.
  destruct (handlePlaceOrder (clicks_from ∅ clicks)) as [items|] eqn:E.
  - destruct (form_items_valid clicks items Hc E) as (Hne & Hq & Hnd).
    split_and!; [done | | done].
    unfold createOrderSchema_parse.
    assert (forallb (λ item, bool_decide (1 ≤ quantity item)%Qc) items = true)
      as ->; [|done].
    apply forallb_forall. intros item Hin. apply bool_decide_eq_true.
    rewrite Forall_forall in Hq. apply Hq. by apply list_elem_of_In.
  - intros pid. unfold handlePlaceOrder in E. cbv zeta in E.
    case_bool_decide as Hlen; [|done]. clear E.
    destruct (clicks_from ∅ clicks !! pid) as [v|] eqn:Hv; [|done].
    rewrite or_zero_Some.
    destruct (decide (0 < v)%Qc) as [Hpos|Hnpos].
    + apply elem_of_map_to_list in Hv.
      assert ((pid, v) ∈ filter (λ e : string * number, (0 < e.2)%Qc)
                           (map_to_list (clicks_from ∅ clicks))) as Hin.
      { by apply list_elem_of_filter. }
      rewrite length_fmap in Hlen.
      destruct (filter _ (map_to_list (clicks_from ∅ clicks)));
        [by apply elem_of_nil in Hin | done].
    + pose proof (quantities_never_negative clicks ∅ (map_Forall_empty _)
                    pid v Hv) as Hge. simpl in Hge.
      apply Qcle_antisym; [by apply Qcnot_lt_le | done].
Qed.

Lemma form_order_passes_validation_witness :
  let clicks := [("A", 1%Qc); ("B", 1%Qc); ("B", (-1)%Qc); ("A", 1%Qc)] in
  Forall (λ c : string * number, c.2 = 1%Qc ∨ c.2 = (-1)%Qc) clicks
  ∧ handlePlaceOrder (clicks_from ∅ clicks)
    = Some [mkOrderLine "A" (Q2Qc 2)]
  ∧ createOrderSchema_parse [mkOrderLine "A" (Q2Qc 2)]
    = Some [mkOrderLine "A" (Q2Qc 2)].
Proof.
  intros clicks.
  assert (Forall (λ c : string * number, c.2 = 1%Qc ∨ c.2 = (-1)%Qc) clicks)
    as Hc.
  { apply (bool_decide_unpack _). by vm_compute. }
  assert (handlePlaceOrder (clicks_from ∅ clicks)
          = Some [mkOrderLine "A" (Q2Qc 2)]) as Hsub by (by vm_compute).
  split; [exact Hc|]. split; [exact Hsub|].
  pose proof (form_order_passes_validation clicks Hc) as H.
  rewrite Hsub in H. by destruct H as (_ & H & _).
Defined.

Lemma createOrderSchema_parse_valid body :
  Forall (λ item, (1 ≤ quantity item)%Qc) body →
  createOrderSchema_parse body = Some body.
Proof.
  intros Hq. unfold createOrderSchema_parse.
  assert (forallb (λ item, bool_decide (1 ≤ quantity item)%Qc) body = true)
    as ->; [|done].
  apply forallb_forall. intros item Hin. apply bool_decide_eq_true.
  rewrite Forall_forall in Hq. apply Hq. by apply list_elem_of_In.
Qed.

(** X18.  An order submitted from the form, after any clicks on plus and
    minus, is never refused for its content.  With a signed-in user whose id
    is not empty the server creates the order and stores one row per
    submitted line, all for different products; without a user the form
    sends an empty [user-id] header and the server answers 401 and stores
    nothing. *)
Theorem form_order_reaches_server parseFloat toString clicks items user db :
  Forall (λ c : string * number, c.2 = 1%Qc ∨ c.2 = (-1)%Qc) clicks →
  handlePlaceOrder (clicks_from ∅ clicks) = Some items →
  let run := post_api_orders parseFloat toString items (user_id_header user) db in
  ((∃ u, user = Some u ∧ u_id u ≠ "") →
     ∃ finalOrder rows,
       run_response run = res_json (Some finalOrder)
       ∧ orderItems (run_db run) = orderItems db ++ rows
       ∧ length rows = length items
       ∧ NoDup (oi_productId <$> rows))
  ∧ (user = None →
     run = mkOrderRun (res_status 401 "User ID required") None db).
Proof.
  intros Hc Hsub run.
  destruct (form_items_valid clicks items Hc Hsub) as (_ & Hq & Hnd). split.
  - intros (u & -> & Hu).
    assert (truthy_string (user_id_header (Some u)) = true) as Htr.
    { unfold user_id_header, truthy_string.
      rewrite (bool_decide_eq_false_2 (u_id u = "")) by done.
      by rewrite (bool_decide_eq_false_2 (u_id u = "")). }
    destruct (post_api_orders_effect parseFloat toString items
                (user_id_header (Some u)) db Hq Htr)
      as (_ & _ & (rows & Hrows & Hcols) & _ & _ & _ & _ & Hresp).
    apply expected_items_order_id in Hcols as [_ Hpairs].
    eexists _, rows. split_and!; [exact Hresp | exact Hrows | |].
    + apply (f_equal length) in Hpairs. by rewrite !length_fmap in Hpairs.
    + apply (f_equal (fmap fst)) in Hpairs.
      rewrite <- !list_fmap_compose in Hpairs.
      change (oi_productId <$> rows = productId <$> items) in Hpairs.
      by rewrite Hpairs.
  - intros ->. subst run. unfold post_api_orders.
    by rewrite createOrderSchema_parse_valid.
Qed.

Lemma form_order_reaches_server_witness :
  let clicks := [("A", 1%Qc); ("B", 1%Qc); ("B", (-1)%Qc); ("A", 1%Qc)] in
  let items := [mkOrderLine "A" (Q2Qc 2)] in
  Forall (λ c : string * number, c.2 = 1%Qc ∨ c.2 = (-1)%Qc) clicks
  ∧ handlePlaceOrder (clicks_from ∅ clicks) = Some items
  ∧ (∃ u, Some (mkUser "u1" "v@example.org" "Vendor") = Some u ∧ u_id u ≠ "")
  ∧ run_db (post_api_orders sample_parseFloat sample_toString items
              (user_id_header None) sample_db) = sample_db
  ∧ ∃ finalOrder rows,
      run_response (post_api_orders sample_parseFloat sample_toString items
                      (user_id_header (Some (mkUser "u1" "v@example.org" "Vendor")))
                      sample_db) = res_json (Some finalOrder)
      ∧ orderItems (run_db (post_api_orders sample_parseFloat sample_toString
                              items
                              (user_id_header
                                 (Some (mkUser "u1" "v@example.org" "Vendor")))
                              sample_db)) = orderItems sample_db ++ rows
      ∧ length rows = length items
      ∧ NoDup (oi_productId <$> rows).
Proof.
  intros clicks items.
  assert (Forall (λ c : string * number, c.2 = 1%Qc ∨ c.2 = (-1)%Qc) clicks)
    as Hc.
  { apply (bool_decide_unpack _). by vm_compute. }
  assert (handlePlaceOrder (clicks_from ∅ clicks) = Some items) as Hsub
    by (by vm_compute).
  assert (∃ u, Some (mkUser "u1" "v@example.org" "Vendor") = Some u
               ∧ u_id u ≠ "") as Hu.
  { eexists. split; [reflexivity | done]. }
  split; [exact Hc|]. split; [exact Hsub|]. split; [exact Hu|]. split.
  - by rewrite (proj2 (form_order_reaches_server sample_parseFloat
                         sample_toString clicks items None sample_db Hc Hsub)).
  - exact (proj1 (form_order_reaches_server sample_parseFloat sample_toString
                    clicks items _ sample_db Hc Hsub) Hu).
Defined.

(** ** From a status change to the procurement list *)

Lemma parent_placed_after_update id status db oi :
  status ≠ PLACED →
  parent_placed (orders (updateOrderStatus id status db).2) oi
  ↔ parent_placed (orders db) oi ∧ oi_orderId oi ≠ id.
Proof.
  intros Hst. unfold parent_placed. simpl. rewrite Exists_fmap.
  rewrite !Exists_exists. split.
  - intros (o & Hin & Hid & Hpl). simpl in *.
    destruct (decide (o_id o = id)) as [Heq|Hne]; simpl in *; [done|].
    split; [by exists o | congruence].
  - intros [(o & Hin & Hid & Hpl) Hne]. exists o. split; [done|]. simpl.
    rewrite decide_False by congruence. done.
Qed.

(** X19.  Moving an order out of [PLACED] takes its items off the
    procurement list.  In a store whose order and product ids are keys and
    whose items name existing products, after [PATCH /api/orders/:id/status]
    with a status other than [PLACED] a product has a row exactly when an
    item of another order still [PLACED] asks for it, and the
    [totalQuantity] of a row is the sum over those items only. *)
Theorem status_change_leaves_procurement_list id status db :
  status ≠ PLACED →
  NoDup (o_id <$> orders db) →
  NoDup (p_id <$> products db) →
  (∀ oi, oi ∈ orderItems db → oi_productId oi ∈ p_id <$> products db) →
  let list := getAggregatedProcurementList
                (patch_api_orders_status id status db).2 in
  (∀ pid, (pid ∈ pr_productId <$> list)
          ↔ ∃ oi, oi ∈ orderItems db ∧ oi_productId oi = pid
                  ∧ parent_placed (orders db) oi ∧ oi_orderId oi ≠ id)
  ∧ ∀ row, row ∈ list →
      pr_totalQuantity row
      = sum_numbers
          (oi_quantity <$>
             filter (λ oi, oi_productId oi = pr_productId row
                           ∧ parent_placed (orders db) oi ∧ oi_orderId oi ≠ id)
                    (orderItems db)).
Proof.
  intros Hst Hon Hpn Hint list. subst list. rewrite patch_store.
  set (db' := (updateOrderStatus id status db).2).
  pose proof (updateOrderStatus_frame id status db) as Hf. cbv zeta in Hf.
  fold db' in Hf. destruct Hf as (_ & Hprod & Hitems & _ & _ & Hids).
  assert (NoDup (o_id <$> orders db')) as Hon' by (by rewrite Hids).
  assert (NoDup (p_id <$> products db')) as Hpn' by (by rewrite Hprod).
  assert (∀ oi, oi ∈ orderItems db' → oi_productId oi ∈ p_id <$> products db')
    as Hint' by (by rewrite Hitems, Hprod).
  unfold getAggregatedProcurementList. cbv zeta.
  destruct (aggregated_rows (placed_rows db')) as (_ & Hkeys & Hsum).
  cbv zeta in Hkeys, Hsum. split.
  - intros pid. rewrite Hkeys, placed_rows_products by done. rewrite Hitems.
    split.
    + intros (oi & Hin & Hpid & Hpl).
      apply parent_placed_after_update in Hpl as [Hpl Hne]; [|done].
      by exists oi.
    + intros (oi & Hin & Hpid & Hpl & Hne). exists oi.
      split_and!; [done | done |]. by apply parent_placed_after_update.
  - intros row Hrow. rewrite (Hsum row Hrow), row_demand_placed by done.
    unfold placed_demand. rewrite Hitems. do 2 f_equal.
    apply filter_agree, Forall_forall. intros oi _.
    pose proof (parent_placed_after_update id status db oi Hst) as Hpp.
    fold db' in Hpp. tauto.
Qed.

Lemma status_change_leaves_procurement_list_witness :
  PROCURING ≠ PLACED
  ∧ NoDup (o_id <$> orders procurement_db)
  ∧ NoDup (p_id <$> products procurement_db)
  ∧ (∀ oi, oi ∈ orderItems procurement_db →
           oi_productId oi ∈ p_id <$> products procurement_db)
  ∧ getAggregatedProcurementList
      (patch_api_orders_status "o1" PROCURING procurement_db).2
    = [mkProcurementRow "A" "Onions" (Q2Qc 5) "kg"]
  ∧ ∀ row, row ∈ getAggregatedProcurementList
                   (patch_api_orders_status "o1" PROCURING procurement_db).2 →
      pr_totalQuantity row
      = sum_numbers
          (oi_quantity <$>
             filter (λ oi, oi_productId oi = pr_productId row
                           ∧ parent_placed (orders procurement_db) oi
                           ∧ oi_orderId oi ≠ "o1")
                    (orderItems procurement_db)).
Proof.
  assert (NoDup (o_id <$> orders procurement_db)) as Hon.
  { apply (bool_decide_unpack _). by vm_compute. }
  assert (NoDup (p_id <$> products procurement_db)) as Hpn.
  { apply (bool_decide_unpack _). by vm_compute. }
  assert (∀ oi, oi ∈ orderItems procurement_db →
                oi_productId oi ∈ p_id <$> products procurement_db) as Hint.
  { apply Forall_forall. apply (bool_decide_unpack _). by vm_compute. }
  split; [done|]. split; [exact Hon|]. split; [exact Hpn|].
  split; [exact Hint|]. split; [reflexivity|].
  exact (proj2 (status_change_leaves_procurement_list "o1" PROCURING
                  procurement_db ltac:(done) Hon Hpn Hint)).
Defined.
